(** * Euler1D_Solve: explicit Euler for a scalar initial-value problem

    A shallow embedding of [src/src_py/src/solvers.py].  The Python class
    [Euler1D_Solve] validates its five constructor arguments, stores them,
    and eagerly computes a mesh ([np.linspace]), a step size and the Euler
    iterates.

    - Python values are a small tagged union ([PyVal]); [bool] is a subclass
      of [int], which is what [isinstance] sees.
    - Python floats are IEEE binary64.  The arithmetic is kept behind the
      interface [FloatOps], so that what depends on the structure of the
      program only is proved without it; [binary64] (Rocq's primitive
      floats) is the arithmetic the program runs on.
    - Exceptions, the attributes of [self] and the calls made to the
      derivative function are threaded through a state-and-error monad. *)

From Stdlib Require Import ZArith Floats String Lia.
From stdpp Require Import base list list_numbers strings pretty gmap.

Local Open Scope string_scope.
Local Open Scope list_scope.
Local Open Scope Z_scope.

(** ** Exceptions and results *)

Inductive exn : Type :=
  | TypeError (msg : string)
  | ValueError (msg : string)
  | OverflowError (msg : string)
  | ZeroDivisionError (msg : string)
  | IndexError (msg : string)
  | AttributeError (attr : string)
  | Raised (what : string).
  (* [Raised]: an exception coming out of the derivative callable; the solver
     neither catches nor wraps it. *)

Inductive Res (A : Type) : Type :=
  | Ok (a : A)
  | Raise (e : exn).
Arguments Ok {A} a.
Arguments Raise {A} e.

(** The five validation failures of [__init__], under the names the
    specification gives them. *)
Definition NotCallable : exn := TypeError "f must be a callable function.".
Definition NotANumber_bounds : exn := TypeError "t_start and t_end must be numbers.".
Definition RangeViolation : exn := ValueError "t_start must be less than t_end.".
Definition InvalidStepCount : exn := ValueError "num_steps must be a pos integer.".
Definition NotANumber_y_0 : exn := TypeError "y_0 must be a real number.".

Definition invalid_argument (e : exn) : bool :=
  match e with
  | TypeError m =>
      (m =? "f must be a callable function.")%string
      || (m =? "t_start and t_end must be numbers.")%string
      || (m =? "y_0 must be a real number.")%string
  | ValueError m =>
      (m =? "t_start must be less than t_end.")%string
      || (m =? "num_steps must be a pos integer.")%string
  | _ => false
  end.

(** ** Float arithmetic *)

(** The operations the solver and [np.linspace] perform on floats.
    [f_of_Z] rounds an integer to the nearest float, [f_cmp_Z] compares a
    float with an integer exactly (Python compares [int] with [float] without
    converting); it is [None] on a NaN. *)
Class FloatOps (F : Type) : Type := {
  f_of_Z : Z -> F;
  f_add : F -> F -> F;
  f_sub : F -> F -> F;
  f_mul : F -> F -> F;
  f_div : F -> F -> F;
  f_eqb : F -> F -> bool;
  f_ltb : F -> F -> bool;
  f_leb : F -> F -> bool;
  f_cmp_Z : F -> Z -> option comparison
}.

(** [float(n)] raises [OverflowError] as soon as [n] would round to an
    infinity: the largest double is [2^1024 - 2^971], and everything from
    [2^1024 - 2^970] on rounds up. *)
Definition float_int_bound : Z := 2 ^ 1024 - 2 ^ 970.

(** *** binary64 *)

Definition b64_of_Z (n : Z) : float :=
  SF2Prim (binary_normalize prec emax n 0 false).

Definition b64_cmp_Z (x : float) (n : Z) : option comparison :=
  match Prim2SF x with
  | S754_nan => None
  | S754_zero _ => Some (0 ?= n)
  | S754_infinity s => Some (if s then Lt else Gt)
  | S754_finite s m e =>
      let sm := if s then Z.neg m else Z.pos m in
      Some (if 0 <=? e then sm * 2 ^ e ?= n else sm ?= n * 2 ^ (- e))
  end.

(** The double that holds a positive integer [p < 2^53] exactly has the
    mantissa [p] shifted up to 53 bits, and the exponent that undoes it. *)
Definition exact_mantissa (p : positive) : positive :=
  match (Z.pos (digits2_pos p) - 53)%Z with
  | Z.neg k => Pos.iter xO p k
  | _ => p
  end.

(** The double of an integer below [2^53] in absolute value. *)
Definition exact_sf (n : Z) : spec_float :=
  match n with
  | Z0 => S754_zero false
  | Z.pos p => S754_finite false (exact_mantissa p) (Z.pos (digits2_pos p) - 53)
  | Z.neg p => S754_finite true (exact_mantissa p) (Z.pos (digits2_pos p) - 53)
  end.

(** A double that is a zero or a finite number, neither an infinity nor a
    NaN. *)
Definition finite_sf (x : spec_float) : bool :=
  match x with
  | S754_zero _ | S754_finite _ _ _ => true
  | _ => false
  end.

Definition b64_finite (x : float) : bool := finite_sf (Prim2SF x).

Definition is_zero_sf (x : spec_float) : bool :=
  match x with S754_zero _ => true | _ => false end.

(** A double that is not a NaN and carries the sign [s] ([true] is
    minus). *)
Definition has_sign (s : bool) (x : spec_float) : bool :=
  match x with
  | S754_nan => false
  | S754_zero s' | S754_infinity s' | S754_finite s' _ _ => Bool.eqb s' s
  end.

#[export] Instance binary64 : FloatOps float := {|
  f_of_Z := b64_of_Z;
  f_add := PrimFloat.add;
  f_sub := PrimFloat.sub;
  f_mul := PrimFloat.mul;
  f_div := PrimFloat.div;
  f_eqb := PrimFloat.eqb;
  f_ltb := PrimFloat.ltb;
  f_leb := PrimFloat.leb;
  f_cmp_Z := b64_cmp_Z
|}.

(** ** Python values, the object and the monad *)

Section Model.
Context {F : Type} {ops : FloatOps F} {W : Type}.

(** What a call of the derivative function does: it returns a float or
    raises.  [W] is whatever the callable can read and write besides its
    two arguments (a closure's variables, globals, a random generator); the
    solver instance is not part of it.  A derivative function that returns
    something other than a number, or that assigns to the attributes of the
    solver it is called from, is outside this model. *)
Inductive outcome : Type :=
  | Returns (v : F)
  | Throws (what : string).

Definition callable : Type := W -> F -> F -> outcome * W.

Inductive PyVal : Type :=
  | PyNone
  | PyBool (b : bool)
  | PyInt (n : Z)
  | PyFloat (x : F)
  | PyStr (s : string)
  | PyFun (g : callable).

(** [callable(v)] *)
Definition py_callable (v : PyVal) : option callable :=
  match v with PyFun g => Some g | _ => None end.

(** [isinstance(v, bool)] *)
Definition isinstance_bool (v : PyVal) : bool :=
  match v with PyBool _ => true | _ => false end.

(** [isinstance(v, int)]: [bool] is a subclass of [int]. *)
Definition isinstance_int (v : PyVal) : bool :=
  match v with PyBool _ | PyInt _ => true | _ => false end.

(** [isinstance(v, (int, float))] *)
Definition isinstance_int_float (v : PyVal) : bool :=
  match v with PyBool _ | PyInt _ | PyFloat _ => true | _ => false end.

(** The integer an [int] instance stands for ([True] is 1, [False] is 0). *)
Definition int_value (v : PyVal) : option Z :=
  match v with
  | PyBool b => Some (Z.b2z b)
  | PyInt n => Some n
  | _ => None
  end.

(** [a >= b] on numbers.  Two ints compare as integers, two floats as
    floats (false on a NaN), an int and a float by their exact values. *)
Definition py_ge (a b : PyVal) : Res bool :=
  match a, b with
  | PyFloat x, PyFloat y => Ok (f_leb y x)
  | PyFloat x, _ =>
      match int_value b with
      | Some n => Ok (match f_cmp_Z x n with Some (Eq | Gt) => true | _ => false end)
      | None => Raise (TypeError "'>=' not supported")
      end
  | _, PyFloat y =>
      match int_value a with
      | Some m => Ok (match f_cmp_Z y m with Some (Eq | Lt) => true | _ => false end)
      | None => Raise (TypeError "'>=' not supported")
      end
  | _, _ =>
      match int_value a, int_value b with
      | Some m, Some n => Ok (n <=? m)
      | _, _ => Raise (TypeError "'>=' not supported")
      end
  end.

(** [float(n)] for an integer [n]. *)
Definition py_float_of_int (n : Z) : Res F :=
  if Z.abs n <? float_int_bound then Ok (f_of_Z n)
  else Raise (OverflowError "int too large to convert to float").

(** [float(v)] *)
Definition py_float (v : PyVal) : Res F :=
  match v with
  | PyFloat x => Ok x
  | PyBool b => py_float_of_int (Z.b2z b)
  | PyInt n => py_float_of_int n
  | _ => Raise (TypeError "float() argument must be a string or a real number")
  end.

(** [a / n] for a float [a] and an integer [n]: [n] is converted first,
    and a zero divisor raises. *)
Definition py_truediv (a : F) (n : Z) : Res F :=
  match py_float_of_int n with
  | Ok d =>
      if n =? 0 then Raise (ZeroDivisionError "float division by zero")
      else Ok (f_div a d)
  | Raise e => Raise e
  end.

(** The attributes of a solver instance; [None] is an attribute that has
    not been assigned yet.  [num_steps] holds the integer the stored value
    stands for. *)
Record Obj : Type := {
  o_f : option callable;
  o_t_start : option F;
  o_t_end : option F;
  o_num_steps : option Z;
  o_y_0 : option F;
  o_mesh : option (list F);
  o_h : option F;
  o_solution : option (list F)
}.

Definition empty_obj : Obj :=
  {| o_f := None; o_t_start := None; o_t_end := None; o_num_steps := None;
     o_y_0 := None; o_mesh := None; o_h := None; o_solution := None |}.

(** The state a method runs in: the instance, the callable's world, and
    the arguments of every call of the derivative function so far. *)
Record St : Type := {
  self : Obj;
  world : W;
  calls : list (F * F)
}.

Definition M (A : Type) : Type := St -> Res A * St.

Definition ret {A} (a : A) : M A := fun st => (Ok a, st).

Definition raise {A} (e : exn) : M A := fun st => (Raise e, st).

Definition bind {A B} (m : M A) (k : A -> M B) : M B :=
  fun st =>
    match m st with
    | (Ok a, st') => k a st'
    | (Raise e, st') => (Raise e, st')
    end.

Definition lift {A} (r : Res A) : M A := fun st => (r, st).
End Model.

Arguments outcome : clear implicits.
Arguments callable : clear implicits.
Arguments PyVal : clear implicits.
Arguments Obj : clear implicits.
Arguments St : clear implicits.
Arguments M : clear implicits.

Declare Scope py_scope.
Delimit Scope py_scope with py.
Notation "x <- m ;; k" := (bind m (fun x => k))
  (at level 100, m at next level, right associativity) : py_scope.
Notation "m ;; k" := (bind m (fun _ => k))
  (at level 100, right associativity) : py_scope.
Local Open Scope py_scope.

Section Solver.
Context {F : Type} {ops : FloatOps F} {W : Type}.

#[local] Abbreviation Obj := (Obj F W).
#[local] Abbreviation St := (St F W).
#[local] Abbreviation M := (M F W).
#[local] Abbreviation PyVal := (PyVal F W).
#[local] Abbreviation callable := (callable F W).

(** *** Attributes *)

(** [self.name], which raises when the attribute is not there. *)
Definition getattr {A} (field : Obj -> option A) (name : string) : M A :=
  fun st =>
    match field (self st) with
    | Some a => (Ok a, st)
    | None => (Raise (AttributeError name), st)
    end.

(** [self.name = ...] *)
Definition update_self (update : Obj -> Obj) (st : St) : St :=
  {| self := update (self st); world := world st; calls := calls st |}.

Definition setattr (update : Obj -> Obj) : M unit :=
  fun st => (Ok tt, update_self update st).

Definition with_f (g : callable) (o : Obj) : Obj :=
  {| o_f := Some g; o_t_start := o_t_start o; o_t_end := o_t_end o;
     o_num_steps := o_num_steps o; o_y_0 := o_y_0 o; o_mesh := o_mesh o;
     o_h := o_h o; o_solution := o_solution o |}.

Definition with_t_start (x : F) (o : Obj) : Obj :=
  {| o_f := o_f o; o_t_start := Some x; o_t_end := o_t_end o;
     o_num_steps := o_num_steps o; o_y_0 := o_y_0 o; o_mesh := o_mesh o;
     o_h := o_h o; o_solution := o_solution o |}.

Definition with_t_end (x : F) (o : Obj) : Obj :=
  {| o_f := o_f o; o_t_start := o_t_start o; o_t_end := Some x;
     o_num_steps := o_num_steps o; o_y_0 := o_y_0 o; o_mesh := o_mesh o;
     o_h := o_h o; o_solution := o_solution o |}.

Definition with_num_steps (n : Z) (o : Obj) : Obj :=
  {| o_f := o_f o; o_t_start := o_t_start o; o_t_end := o_t_end o;
     o_num_steps := Some n; o_y_0 := o_y_0 o; o_mesh := o_mesh o;
     o_h := o_h o; o_solution := o_solution o |}.

Definition with_y_0 (x : F) (o : Obj) : Obj :=
  {| o_f := o_f o; o_t_start := o_t_start o; o_t_end := o_t_end o;
     o_num_steps := o_num_steps o; o_y_0 := Some x; o_mesh := o_mesh o;
     o_h := o_h o; o_solution := o_solution o |}.

Definition with_mesh (m : list F) (o : Obj) : Obj :=
  {| o_f := o_f o; o_t_start := o_t_start o; o_t_end := o_t_end o;
     o_num_steps := o_num_steps o; o_y_0 := o_y_0 o; o_mesh := Some m;
     o_h := o_h o; o_solution := o_solution o |}.

Definition with_h (x : F) (o : Obj) : Obj :=
  {| o_f := o_f o; o_t_start := o_t_start o; o_t_end := o_t_end o;
     o_num_steps := o_num_steps o; o_y_0 := o_y_0 o; o_mesh := o_mesh o;
     o_h := Some x; o_solution := o_solution o |}.

Definition with_solution (y : list F) (o : Obj) : Obj :=
  {| o_f := o_f o; o_t_start := o_t_start o; o_t_end := o_t_end o;
     o_num_steps := o_num_steps o; o_y_0 := o_y_0 o; o_mesh := o_mesh o;
     o_h := o_h o; o_solution := Some y |}.

(** *** Calls and loops *)

(** The state right after a call with arguments [(t, y)] that left the
    callable's world at [w]. *)
Definition after_call (st : St) (t y : F) (w : W) : St :=
  {| self := self st; world := w; calls := calls st ++ [(t, y)] |}.

(** [g(t, y)]: the call is recorded, the callable's world moves on, and
    what it raises comes out unchanged. *)
Definition call (g : callable) (t y : F) : M F :=
  fun st =>
    let '(r, w) := g (world st) t y in
    match r with
    | Returns v => (Ok v, after_call st t y w)
    | Throws e => (Raise (Raised e), after_call st t y w)
    end.

(** [if b: raise e] *)
Definition raise_if (b : bool) (e : exn) : M unit :=
  if b then raise e else ret tt.

(** [for k in ks: a = body(k, a)] *)
Fixpoint for_each {A} (ks : list Z) (body : Z -> A -> M A) (a : A) : M A :=
  match ks with
  | [] => ret a
  | k :: ks' => a' <- body k a ;; for_each ks' body a'
  end.

(** [range(n)] *)
Definition range (n : Z) : list Z := seqZ 0 n.

(** *** The part of NumPy the solver uses *)

(** [a[i]] on a one-dimensional array; a negative index counts from the
    end. *)
Definition arr_index (a : list F) (i : Z) : Res nat :=
  let len := Z.of_nat (length a) in
  let j := if i <? 0 then i + len else i in
  if (0 <=? j) && (j <? len) then Ok (Z.to_nat j)
  else Raise (IndexError "index is out of bounds").

Definition arr_get (a : list F) (i : Z) : Res F :=
  match arr_index a i with
  | Ok j =>
      match a !! j with
      | Some v => Ok v
      | None => Raise (IndexError "index is out of bounds")
      end
  | Raise e => Raise e
  end.

(** [a[i] = v] *)
Definition arr_set (a : list F) (i : Z) (v : F) : Res (list F) :=
  match arr_index a i with
  | Ok j => Ok (<[j := v]> a)
  | Raise e => Raise e
  end.

(** [np.zeros(n)] *)
Definition np_zeros (n : Z) : Res (list F) :=
  if n <? 0 then Raise (ValueError "negative dimensions are not allowed")
  else Ok (replicate (Z.to_nat n) (f_of_Z 0)).

(** [np.arange(0, num)] as floats: 0.0, 1.0, ... *)
Definition np_arange (num : Z) : list F :=
  (fun i => f_of_Z i) <$> seqZ 0 num.

(** [np.linspace(start, stop, num)] with its default [endpoint=True].
    NumPy is not part of the repository; this follows its implementation:
    the samples are [arange(num) * step + start] with
    [step = (stop - start) / (num - 1)], a step that rounds to zero is
    applied as [arange(num) / (num - 1) * (stop - start)] instead, and the
    last sample is overwritten with [stop]. *)
Definition np_linspace (start stop : F) (num : Z) : Res (list F) :=
  if num <? 0
  then Raise (ValueError ("Number of samples, " ++ pretty num ++ ", must be non-negative."))
  else
    let div := num - 1 in
    let delta := f_sub stop start in
    let y := np_arange num in
    let y :=
      if 0 <? div then
        let step := f_div delta (f_of_Z div) in
        if f_eqb step (f_of_Z 0)
        then (fun v => f_mul (f_div v (f_of_Z div)) delta) <$> y
        else (fun v => f_mul v step) <$> y
      else (fun v => f_mul v delta) <$> y in
    let y := (fun v => f_add v start) <$> y in
    Ok (if 1 <? num then <[Z.to_nat (num - 1) := stop]> y else y).

(** What [np.linspace(start, stop, div + 1)] computes at an index [i] below
    the last one. *)
Definition linspace_sample (start stop : F) (div i : Z) : F :=
  let delta := f_sub stop start in
  let step := f_div delta (f_of_Z div) in
  f_add (if f_eqb step (f_of_Z 0)
         then f_mul (f_div (f_of_Z i) (f_of_Z div)) delta
         else f_mul (f_of_Z i) step)
        start.

(** *** The methods of [Euler1D_Solve] *)

Definition create_1d_mesh : M (list F) :=
  t_start <- getattr o_t_start "t_start" ;;
  t_end <- getattr o_t_end "t_end" ;;
  num_steps <- getattr o_num_steps "num_steps" ;;
  lift (np_linspace t_start t_end (num_steps + 1)).

Definition calc_step_size : M F :=
  t_end <- getattr o_t_end "t_end" ;;
  t_start <- getattr o_t_start "t_start" ;;
  num_steps <- getattr o_num_steps "num_steps" ;;
  lift (py_truediv (f_sub t_end t_start) num_steps).

(** The body of the loop of [solve]:
    [t = self.mesh[k]; y[k + 1] = y[k] + self.h * self.f(t, y[k])]. *)
Definition solve_step (k : Z) (y : list F) : M (list F) :=
  mesh <- getattr o_mesh "mesh" ;;
  t <- lift (arr_get mesh k) ;;
  y_k <- lift (arr_get y k) ;;
  h <- getattr o_h "h" ;;
  f <- getattr o_f "f" ;;
  y_k' <- lift (arr_get y k) ;;
  v <- call f t y_k' ;;
  lift (arr_set y (k + 1) (f_add y_k (f_mul h v))).

Definition solve : M (list F) :=
  num_steps <- getattr o_num_steps "num_steps" ;;
  y <- lift (np_zeros (num_steps + 1)) ;;
  y_0 <- getattr o_y_0 "y_0" ;;
  y <- lift (arr_set y 0 y_0) ;;
  num_steps <- getattr o_num_steps "num_steps" ;;
  y <- for_each (range num_steps) solve_step y ;;
  ret y.

Definition __init__ (f t_start t_end y_0 num_steps : PyVal) : M unit :=
  (* Validate function *)
  g <- match py_callable f with
       | Some g => ret g
       | None => raise NotCallable
       end ;;
  setattr (with_f g) ;;
  (* Validate t_start and t_end *)
  raise_if (negb (isinstance_int_float t_start) || negb (isinstance_int_float t_end))
    NotANumber_bounds ;;
  ge <- lift (py_ge t_start t_end) ;;
  raise_if ge RangeViolation ;;
  ts <- lift (py_float t_start) ;;
  setattr (with_t_start ts) ;;
  te <- lift (py_float t_end) ;;
  setattr (with_t_end te) ;;
  (* Validate num_steps *)
  n <- match (if isinstance_int num_steps then int_value num_steps else None) with
       | Some n => if n <=? 0 then raise InvalidStepCount else ret n
       | None => raise InvalidStepCount
       end ;;
  setattr (with_num_steps n) ;;
  (* Validate y_0 *)
  raise_if (negb (isinstance_int_float y_0) || isinstance_bool y_0) NotANumber_y_0 ;;
  y0 <- lift (py_float y_0) ;;
  setattr (with_y_0 y0) ;;
  (* calculated attributes when the class is initialized *)
  mesh <- create_1d_mesh ;;
  setattr (with_mesh mesh) ;;
  h <- calc_step_size ;;
  setattr (with_h h) ;;
  solution <- solve ;;
  setattr (with_solution solution).

(** The state [__init__] starts from: a new instance, no attribute set. *)
Definition fresh (st : St) : St :=
  {| self := empty_obj; world := world st; calls := calls st |}.

(** [Euler1D_Solve(f, t_start, t_end, y_0, num_steps)]: [__init__] runs
    on a fresh instance; when it returns, [self] of the final state is the
    new solver, and when it raises the caller gets no instance at all. *)
Definition Euler1D_Solve (f t_start t_end y_0 num_steps : PyVal) : M unit :=
  fun st => __init__ f t_start t_end y_0 num_steps (fresh st).

(** *** Vocabulary for the statements below *)

(** The last six lines of [__init__]: the attributes computed from the
    validated ones. *)
Definition compute_derived : M unit :=
  mesh <- create_1d_mesh ;;
  setattr (with_mesh mesh) ;;
  h <- calc_step_size ;;
  setattr (with_h h) ;;
  solution <- solve ;;
  setattr (with_solution solution).

(** An instance with every input attribute set, [mesh] and [h] computed,
    and [solution] as given. *)
Definition solver_obj (g : callable) (ts te : F) (n : Z) (y0 : F)
    (mesh : list F) (h : F) (solution : option (list F)) : Obj :=
  {| o_f := Some g; o_t_start := Some ts; o_t_end := Some te;
     o_num_steps := Some n; o_y_0 := Some y0; o_mesh := Some mesh;
     o_h := Some h; o_solution := solution |}.

(** The checks of [__init__] all pass, and the arguments stand for the
    callable [g], the floats [ts], [te], [y0] and the integer [n]. *)
Definition accepted (f t_start t_end y_0 num_steps : PyVal)
    (g : callable) (ts te : F) (n : Z) (y0 : F) : Prop :=
  py_callable f = Some g
  /\ isinstance_int_float t_start = true /\ isinstance_int_float t_end = true
  /\ py_ge t_start t_end = Ok false
  /\ py_float t_start = Ok ts /\ py_float t_end = Ok te
  /\ isinstance_int num_steps = true /\ int_value num_steps = Some n /\ 0 < n
  /\ isinstance_int_float y_0 = true /\ isinstance_bool y_0 = false
  /\ py_float y_0 = Ok y0.

(** The conditions of the five [raise] statements of [__init__], all
    passed. *)
Definition valid_arguments (f t_start t_end y_0 num_steps : PyVal) : bool :=
  match py_callable f with Some _ => true | None => false end
  && isinstance_int_float t_start && isinstance_int_float t_end
  && match py_ge t_start t_end with Ok false => true | _ => false end
  && isinstance_int num_steps
  && match int_value num_steps with Some n => 0 <? n | None => false end
  && isinstance_int_float y_0 && negb (isinstance_bool y_0).

(** [mesh[i] < mesh[i + 1]] throughout. *)
Definition strictly_increasing (mesh : list F) : Prop :=
  forall (i : nat) (a b : F),
    mesh !! i = Some a -> mesh !! S i = Some b -> f_ltb a b = true.

(** Two instances [solve] cannot tell apart: it reads [f], [num_steps],
    [y_0], [mesh] and [h]. *)
Definition same_inputs (o o' : Obj) : Prop :=
  o_f o = o_f o' /\ o_num_steps o = o_num_steps o' /\ o_y_0 o = o_y_0 o'
  /\ o_mesh o = o_mesh o' /\ o_h o = o_h o'.

(** A derivative function is deterministic when what it returns or raises
    depends on its two arguments only. *)
Definition deterministic (g : callable) : Prop :=
  forall (w w' : W) (t y : F), fst (g w t y) = fst (g w' t y).

(** A derivative function that computes [g0] and never raises. *)
Definition computes (g : callable) (g0 : F -> F -> F) : Prop :=
  forall (w : W) (t y : F), fst (g w t y) = Returns (g0 t y).

(** What the calls [g(t, y)] for the argument pairs [args], made one after
    the other from the world [w], return or raise, and the world they
    leave. *)
Fixpoint replay (g : callable) (w : W) (args : list (F * F))
    : list (outcome F) * W :=
  match args with
  | [] => ([], w)
  | (t, y) :: rest =>
      let '(r, w1) := g w t y in
      let '(rs, w2) := replay g w1 rest in
      (r :: rs, w2)
  end.
End Solver.

(** ** Running the solver on binary64 *)

Module Run.
Open Scope float_scope.

(** A derivative function that depends on nothing but its arguments. *)
Definition pure_fun (g : float -> float -> float) : callable float unit :=
  fun w t y => (Returns (g t y), w).

Definition start : St float unit :=
  {| self := empty_obj; world := tt; calls := [] |}.

(** [Euler1D_Solve(g, t_start, t_end, y_0, num_steps)] from scratch. *)
Definition construct (g : float -> float -> float)
    (t_start t_end y_0 num_steps : PyVal float unit) : Res unit * St float unit :=
  Euler1D_Solve (PyFun (pure_fun g)) t_start t_end y_0 num_steps start.

(** [dy/dt = y], the manual case of [test_solve_method]. *)
Definition simple_f (t y : float) : float := y.

(** The solver of that manual case:
    [Euler1D_Solve(simple_f, t_start=0.0, t_end=1.0, y_0=1.0, num_steps=2)]. *)
Definition two_steps : St float unit :=
  snd (construct simple_f (PyFloat 0) (PyFloat 1) (PyFloat 1) (PyInt 2)).
End Run.

(** ** Plotting, exporting and the script *)

(** [plot_solution] and [csv_export] talk to matplotlib, pandas, the file
    system and the terminal.  What they hand over is recorded as data: the
    calls made to [matplotlib.pyplot], the tables written to files, the
    lines printed.  Rendering (pixels, the text of a float) is left to the
    libraries. *)

(** Besides the exceptions of the solver, writing a file can fail. *)
Inductive io_exn : Type :=
  | InSolver (e : exn)
  | OSError (filename : string).

Inductive IORes (A : Type) : Type :=
  | IOk (a : A)
  | IORaise (e : io_exn).
Arguments IOk {A} a.
Arguments IORaise {A} e.

Section Output.
Context {F : Type} {ops : FloatOps F} {W : Type}.

(** The legend [f"Euler method (h = {self.h:.4f}, n = {self.num_steps})"],
    as the two values it interpolates. *)
Record Label : Type := {
  label_h : F;
  label_n : Z
}.

(** The calls [plot_solution] makes to [matplotlib.pyplot]. *)
Inductive plt_call : Type :=
  | plt_figure (figsize : Z * Z)
  | plt_plot (x y : list F) (label : Label) (marker : string)
  | plt_xlabel (s : string)
  | plt_ylabel (s : string)
  | plt_title (s : string)
  | plt_legend
  | plt_grid (b : bool)
  | plt_tight_layout
  | plt_show.

(** A [pandas.DataFrame] made from a dict of columns, in insertion order. *)
Record DataFrame : Type := {
  df_columns : list (string * list F)
}.

(** What [to_csv(filename, index=False)] writes: the header and the rows. *)
Record Csv : Type := {
  csv_header : list string;
  csv_rows : list (list F)
}.

(** What is outside the solver: the pyplot calls so far, the files, which
    paths can be opened for writing, and the lines printed so far. *)
Record Out : Type := {
  plt : list plt_call;
  files : gmap string Csv;
  can_write : string -> bool;
  stdout : list string
}.

Record Sys : Type := {
  prog : St F W;
  out : Out
}.

Definition IO (A : Type) : Type := Sys -> IORes A * Sys.

Definition io_ret {A} (a : A) : IO A := fun s => (IOk a, s).

Definition io_raise {A} (e : io_exn) : IO A := fun s => (IORaise e, s).

Definition io_bind {A B} (m : IO A) (k : A -> IO B) : IO B :=
  fun s =>
    match m s with
    | (IOk a, s') => k a s'
    | (IORaise e, s') => (IORaise e, s')
    end.

(** [a is None] for an array [a]: an array is never the object [None]. *)
Definition is_None (a : list F) : bool := false.

(** A computation of the solver, run inside the script. *)
Definition run {A} (m : M F W A) : IO A :=
  fun s =>
    match m (prog s) with
    | (Ok a, st) => (IOk a, {| prog := st; out := out s |})
    | (Raise e, st) => (IORaise (InSolver e), {| prog := st; out := out s |})
    end.

Definition with_out (o : Out) (s : Sys) : Sys := {| prog := prog s; out := o |}.

(** One more call to pyplot. *)
Definition plt_do (c : plt_call) : IO unit :=
  fun s =>
    (IOk tt,
     with_out {| plt := plt (out s) ++ [c]; files := files (out s);
                 can_write := can_write (out s); stdout := stdout (out s) |} s).

(** [plt.plot(x, y, label=..., marker=...)], which refuses sequences of
    different lengths. *)
Definition plt_plot_xy (x y : list F) (label : Label) (marker : string) : IO unit :=
  if (length x =? length y)%nat then plt_do (plt_plot x y label marker)
  else io_raise (InSolver (ValueError "x and y must have same first dimension")).

(** [pd.DataFrame(data)] for a dict of arrays, which must be of one length. *)
Definition pd_DataFrame (data : list (string * list F)) : Res DataFrame :=
  match data with
  | [] => Ok {| df_columns := [] |}
  | (_, c) :: rest =>
      if forallb (fun col => (length (snd col) =? length c)%nat) rest
      then Ok {| df_columns := data |}
      else Raise (ValueError "All arrays must be of the same length")
  end.

(** The rows of a frame: row [i] holds element [i] of every column. *)
Definition df_rows (df : DataFrame) : list (list F) :=
  match df_columns df with
  | [] => []
  | (_, c) :: _ =>
      (fun i => omap (fun col => snd col !! i) (df_columns df)) <$> seq 0 (length c)
  end.

(** [df.to_csv(filename, index=False)] *)
Definition to_csv (df : DataFrame) (filename : string) : IO unit :=
  fun s =>
    if can_write (out s) filename then
      (IOk tt,
       with_out {| plt := plt (out s);
                   files := <[filename := {| csv_header := fst <$> df_columns df;
                                              csv_rows := df_rows df |}]> (files (out s));
                   can_write := can_write (out s); stdout := stdout (out s) |} s)
    else (IORaise (OSError filename), s).

(** [print(line)] *)
Definition print (line : string) : IO unit :=
  fun s =>
    (IOk tt,
     with_out {| plt := plt (out s); files := files (out s);
                 can_write := can_write (out s); stdout := stdout (out s) ++ [line] |} s).
End Output.

Arguments Label : clear implicits.
Arguments plt_call : clear implicits.
Arguments DataFrame : clear implicits.
Arguments Csv : clear implicits.
Arguments Out : clear implicits.
Arguments Sys : clear implicits.
Arguments IO : clear implicits.

Declare Scope io_scope.
Delimit Scope io_scope with io.
Notation "x <- m ;; k" := (io_bind m (fun x => k))
  (at level 100, m at next level, right associativity) : io_scope.
Notation "m ;; k" := (io_bind m (fun _ => k))
  (at level 100, right associativity) : io_scope.

Section Script.
Context {F : Type} {ops : FloatOps F} {W : Type}.
Local Open Scope io_scope.

(** [self.solution] is assigned once, in [__init__], and holds the array
    [solve()] returned; an instance without the attribute fails on reading
    it. *)
Definition plot_solution : IO F W unit :=
  solution <- run (getattr o_solution "solution") ;;
  (if is_None solution
   then io_raise (InSolver (ValueError "You must call .solve() before plotting."))
   else io_ret tt) ;;
  plt_do (plt_figure (8, 5)) ;;
  mesh <- run (getattr o_mesh "mesh") ;;
  solution <- run (getattr o_solution "solution") ;;
  h <- run (getattr o_h "h") ;;
  num_steps <- run (getattr o_num_steps "num_steps") ;;
  plt_plot_xy mesh solution {| label_h := h; label_n := num_steps |} "o" ;;
  plt_do (plt_xlabel "t") ;;
  plt_do (plt_ylabel "y(t)") ;;
  plt_do (plt_title "Euler Method Solution") ;;
  plt_do plt_legend ;;
  plt_do (plt_grid true) ;;
  plt_do plt_tight_layout ;;
  plt_do plt_show.

Definition csv_export (filename : string) : IO F W unit :=
  mesh <- run (getattr o_mesh "mesh") ;;
  solution <- run (getattr o_solution "solution") ;;
  df <- run (lift (pd_DataFrame [("t", mesh); ("y(t)", solution)])) ;;
  to_csv df filename ;;
  print ("Solution exported to " ++ filename)%string.

(** The script of [main.py], from the point where the configuration has
    been read: [getint] has produced the integer [n], [getfloat] the floats
    [domain_start], [domain_end] and [y_0], and [f] evaluates the configured
    expression, which can do anything a callable can. *)
Definition main (f : callable F W) (n : Z) (domain_start domain_end y_0 : F)
    : IO F W unit :=
  run (Euler1D_Solve (PyFun f) (PyFloat domain_start) (PyFloat domain_end)
         (PyFloat y_0) (PyInt n)) ;;
  plot_solution ;;
  csv_export "solution.csv".

(** *** Vocabulary for the statements below *)

(** The calls of one [plot_solution()], in order. *)
Definition figure (mesh solution : list F) (h : F) (num_steps : Z)
    : list (plt_call F) :=
  [plt_figure (8, 5);
   plt_plot mesh solution {| label_h := h; label_n := num_steps |} "o";
   plt_xlabel "t"; plt_ylabel "y(t)"; plt_title "Euler Method Solution";
   plt_legend; plt_grid true; plt_tight_layout; plt_show].

(** The table with the columns [t] and [y(t)]: row [i] holds [mesh[i]] and
    [solution[i]]. *)
Definition table (mesh solution : list F) : Csv F :=
  {| csv_header := ["t"; "y(t)"];
     csv_rows := zip_with (fun t y => [t; y]) mesh solution |}.
End Script.

(** ** Running the script on binary64 *)

Module RunScript.
(** Nothing plotted, no file, nothing printed yet; every path can be
    written. *)
Definition quiet : Out float :=
  {| plt := []; files := ∅; can_write := fun _ => true; stdout := [] |}.

(** The same, on a file system that refuses every write. *)
Definition read_only : Out float :=
  {| plt := []; files := ∅; can_write := fun _ => false; stdout := [] |}.

(** A derivative function that raises on every call. *)
Definition failing_f : callable float unit :=
  fun w t y => (Throws "ZeroDivisionError", w).
End RunScript.

(** * Properties *)

Section Facts.
Context {F : Type} {ops : FloatOps F} {W : Type}.
Implicit Types (st : St F W) (o : Obj F W) (g : callable F W) (v : PyVal F W).
Implicit Types (y mesh : list F) (k n : Z).

(** ** Running the monad *)

Ltac break_match :=
  match goal with
  | |- context [match ?x with _ => _ end] =>
      lazymatch x with
      | context [match _ with _ => _ end] => fail
      | _ => destruct x eqn:?; simpl
      end
  end.

Lemma bind_ok {A B} (m : M F W A) (c : A -> M F W B) st a st' :
  m st = (Ok a, st') -> bind m c st = c a st'.
Proof. intros E. unfold bind. now rewrite E. Qed.

Lemma getattr_some {A} (field : Obj F W -> option A) name st a :
  field (self st) = Some a -> getattr field name st = (Ok a, st).
Proof. intros E. unfold getattr. now rewrite E. Qed.

(** ** Arrays *)

Lemma arr_index_nat y (i : nat) :
  (i < length y)%nat -> arr_index y (Z.of_nat i) = Ok i.
Proof.
  intros Hi. unfold arr_index.
  destruct (Z.ltb_spec (Z.of_nat i) 0) as [Hneg|_]; [lia|].
  destruct (Z.leb_spec 0 (Z.of_nat i)) as [_|Hneg]; [|lia].
  destruct (Z.ltb_spec (Z.of_nat i) (Z.of_nat (length y))) as [_|Hge]; [|lia].
  simpl. now rewrite Nat2Z.id.
Qed.

Lemma arr_get_nat y (i : nat) x :
  y !! i = Some x -> arr_get y (Z.of_nat i) = Ok x.
Proof.
  intros E. unfold arr_get.
  rewrite arr_index_nat by (eapply lookup_lt_Some; eauto). now rewrite E.
Qed.

Lemma arr_set_nat y (i : nat) x :
  (i < length y)%nat -> arr_set y (Z.of_nat i) x = Ok (<[i := x]> y).
Proof. intros Hi. unfold arr_set. now rewrite arr_index_nat. Qed.

Lemma np_zeros_nat (m : nat) :
  np_zeros (Z.of_nat m) = Ok (replicate m (f_of_Z 0)).
Proof.
  unfold np_zeros. destruct (Z.ltb_spec (Z.of_nat m) 0); [lia|].
  now rewrite Nat2Z.id.
Qed.

Lemma np_linspace_length (start stop : F) (num : Z) mesh :
  np_linspace start stop num = Ok mesh -> length mesh = Z.to_nat num.
Proof.
  unfold np_linspace. destruct (num <? 0); [discriminate|].
  intros [= <-]. unfold np_arange.
  destruct (1 <? num); rewrite ?length_insert;
    destruct (0 <? num - 1); [destruct (f_eqb _ _)| |destruct (f_eqb _ _)|];
    now rewrite !length_fmap, length_seqZ.
Qed.

Lemma np_linspace_samples (start stop : F) (m : nat) :
  (1 <= m)%nat ->
  exists mesh,
    np_linspace start stop (Z.of_nat m + 1) = Ok mesh
    /\ length mesh = S m
    /\ mesh !! m = Some stop
    /\ forall i : nat, (i < m)%nat ->
         mesh !! i = Some (linspace_sample start stop (Z.of_nat m) (Z.of_nat i)).
Proof.
  intros Hm. unfold np_linspace.
  destruct (Z.ltb_spec (Z.of_nat m + 1) 0) as [?|_]; [lia|].
  replace (Z.of_nat m + 1 - 1) with (Z.of_nat m) by lia.
  destruct (Z.ltb_spec 0 (Z.of_nat m)) as [_|?]; [|lia].
  destruct (Z.ltb_spec 1 (Z.of_nat m + 1)) as [_|?]; [|lia].
  rewrite Nat2Z.id.
  eexists; split; [reflexivity|].
  assert (Hlen : forall c : F -> F,
    length ((fun x => f_add x start) <$> (c <$> np_arange (Z.of_nat m + 1))) = S m).
  { intros c. unfold np_arange. rewrite !length_fmap, length_seqZ. lia. }
  assert (Hget : forall (c : F -> F) (i : nat), (i < S m)%nat ->
    ((fun x => f_add x start) <$> (c <$> np_arange (Z.of_nat m + 1))) !! i
    = Some (f_add (c (f_of_Z (Z.of_nat i))) start)).
  { intros c i Hi. unfold np_arange. rewrite !list_lookup_fmap.
    rewrite lookup_seqZ_lt by lia. reflexivity. }
  unfold linspace_sample.
  destruct (f_eqb (f_div (f_sub stop start) (f_of_Z (Z.of_nat m))) (f_of_Z 0)).
  - rewrite length_insert, Hlen. split; [reflexivity|]. split.
    + apply list_lookup_insert_eq. rewrite Hlen. lia.
    + intros i Hi. rewrite list_lookup_insert_ne by lia. apply Hget. lia.
  - rewrite length_insert, Hlen. split; [reflexivity|]. split.
    + apply list_lookup_insert_eq. rewrite Hlen. lia.
    + intros i Hi. rewrite list_lookup_insert_ne by lia. apply Hget. lia.
Qed.

(** ** The methods, run on an instance whose attributes are set *)

Lemma create_1d_mesh_run st (ts te : F) n :
  o_t_start (self st) = Some ts -> o_t_end (self st) = Some te ->
  o_num_steps (self st) = Some n ->
  create_1d_mesh st = (np_linspace ts te (n + 1), st).
Proof.
  intros E1 E2 E3. unfold create_1d_mesh, bind, getattr, lift.
  rewrite E1; simpl. rewrite E2; simpl. now rewrite E3.
Qed.

Lemma calc_step_size_run st (ts te : F) n :
  o_t_start (self st) = Some ts -> o_t_end (self st) = Some te ->
  o_num_steps (self st) = Some n ->
  calc_step_size st = (py_truediv (f_sub te ts) n, st).
Proof.
  intros E1 E2 E3. unfold calc_step_size, bind, getattr, lift.
  rewrite E2; simpl. rewrite E1; simpl. now rewrite E3.
Qed.

Lemma solve_step_run st (k : nat) y mesh (h : F) g (t yk : F) :
  o_mesh (self st) = Some mesh -> o_h (self st) = Some h ->
  o_f (self st) = Some g ->
  mesh !! k = Some t -> y !! k = Some yk -> (S k < length y)%nat ->
  solve_step (Z.of_nat k) y st =
    (match fst (g (world st) t yk) with
     | Returns r => Ok (<[S k := f_add yk (f_mul h r)]> y)
     | Throws e => Raise (Raised e)
     end,
     after_call st t yk (snd (g (world st) t yk))).
Proof.
  intros Em Eh Ef Et Ey Hk. unfold solve_step, bind, getattr, lift, call.
  rewrite Em; simpl. rewrite (arr_get_nat _ _ _ Et), (arr_get_nat _ _ _ Ey); simpl.
  rewrite Eh; simpl. rewrite Ef; simpl.
  destruct (g (world st) t yk) as [[r|e] w]; simpl; [|reflexivity].
  replace (Z.of_nat k + 1) with (Z.of_nat (S k)) by lia.
  now rewrite arr_set_nat.
Qed.

(** The loop of [solve] from index [j] on, for [m] more steps, when the
    callable computes the function [g0]. *)
Lemma euler_loop g (g0 : F -> F -> F) mesh (h : F) (m : nat) :
  forall (j : nat) y st,
    o_mesh (self st) = Some mesh -> o_h (self st) = Some h ->
    o_f (self st) = Some g ->
    computes g g0 ->
    (j + m <= length mesh)%nat -> (j + m < length y)%nat ->
    exists y' st',
      for_each (seqZ (Z.of_nat j) (Z.of_nat m)) solve_step y st = (Ok y', st')
      /\ self st' = self st
      /\ length y' = length y
      /\ (forall i : nat, (i <= j)%nat -> y' !! i = y !! i)
      /\ (forall k : nat, (j <= k < j + m)%nat ->
           exists t yk, mesh !! k = Some t /\ y' !! k = Some yk
             /\ y' !! S k = Some (f_add yk (f_mul h (g0 t yk))))
      /\ calls st' = calls st ++ zip (take m (drop j mesh)) (take m (drop j y')).
Proof.
  induction m as [|m IH]; intros j y st Em Eh Ef Hg Hmesh Hy.
  - exists y, st. rewrite seqZ_nil by lia. simpl.
    split; [reflexivity|]. split; [reflexivity|]. split; [reflexivity|].
    split; [reflexivity|]. split; [intros k Hk; lia|].
    now rewrite app_nil_r.
  - rewrite seqZ_cons by lia. simpl.
    destruct (lookup_lt_is_Some_2 mesh j) as [t Et]; [lia|].
    destruct (lookup_lt_is_Some_2 y j) as [yk Ey]; [lia|].
    erewrite bind_ok; cycle 1.
    { rewrite (solve_step_run st j y mesh h g t yk) by (auto; lia).
      rewrite Hg. reflexivity. }
    set (y1 := <[S j := f_add yk (f_mul h (g0 t yk))]> y).
    set (st1 := after_call st t yk (snd (g (world st) t yk))).
    replace (Z.succ (Z.of_nat j)) with (Z.of_nat (S j)) by lia.
    replace (Z.pred (Z.of_nat (S m))) with (Z.of_nat m) by lia.
    destruct (IH (S j) y1 st1) as (y' & st' & Erun & Eself & Elen & Hlow & Hrec & Hcalls);
      auto; try (unfold y1; rewrite ?length_insert; lia).
    exists y', st'. split; [exact Erun|].
    assert (Hj : y' !! j = Some yk).
    { rewrite Hlow by lia. unfold y1. now rewrite list_lookup_insert_ne by lia. }
    assert (HSj : y' !! S j = Some (f_add yk (f_mul h (g0 t yk)))).
    { rewrite Hlow by lia. unfold y1. apply list_lookup_insert_eq. lia. }
    split; [exact Eself|]. split; [unfold y1 in Elen; now rewrite length_insert in Elen|].
    split; [|split].
    + intros i Hi. rewrite Hlow by lia. unfold y1.
      now rewrite list_lookup_insert_ne by lia.
    + intros k Hk. destruct (decide (k = j)) as [->|Hne].
      * exists t, yk. auto.
      * apply Hrec. lia.
    + rewrite Hcalls. unfold st1. simpl.
      rewrite (drop_S mesh t j Et), (drop_S y' yk j Hj). simpl.
      now rewrite <- app_assoc.
Qed.

(** ** What the methods leave alone *)

Lemma create_1d_mesh_frame st : snd (create_1d_mesh st) = st.
Proof.
  unfold create_1d_mesh, bind, getattr, lift.
  destruct (o_t_start (self st)); simpl; [|reflexivity].
  destruct (o_t_end (self st)); simpl; [|reflexivity].
  now destruct (o_num_steps (self st)).
Qed.

Lemma calc_step_size_frame st : snd (calc_step_size st) = st.
Proof.
  unfold calc_step_size, bind, getattr, lift.
  destruct (o_t_end (self st)); simpl; [|reflexivity].
  destruct (o_t_start (self st)); simpl; [|reflexivity].
  now destruct (o_num_steps (self st)).
Qed.

Lemma solve_step_frame k y st : self (snd (solve_step k y st)) = self st.
Proof.
  unfold solve_step, bind, getattr, lift, call.
  repeat (try reflexivity; break_match).
Qed.

Lemma for_each_solve_step_frame ks : forall y st,
  self (snd (for_each ks solve_step y st)) = self st.
Proof.
  induction ks as [|k ks IH]; intros y st; simpl; [reflexivity|].
  unfold bind. pose proof (solve_step_frame k y st) as Hk.
  destruct (solve_step k y st) as [[y1|e] st1]; simpl in *; [|exact Hk].
  now rewrite IH.
Qed.

Lemma solve_frame st : self (snd (solve st)) = self st.
Proof.
  unfold solve, bind, getattr, lift, ret.
  destruct (o_num_steps (self st)) as [n|] eqn:En; simpl; [|reflexivity].
  destruct (np_zeros (n + 1)) as [y|]; simpl; [|reflexivity].
  destruct (o_y_0 (self st)) as [y_0|]; simpl; [|reflexivity].
  destruct (arr_set y 0 y_0) as [y'|]; simpl; [|reflexivity].
  rewrite En; simpl.
  pose proof (for_each_solve_step_frame (range n) y' st) as Hk.
  destruct (for_each (range n) solve_step y' st) as [[y1|e] st1]; simpl in *; exact Hk.
Qed.

(** ** [solve] on an instance whose callable computes a function *)

Lemma solve_computes st g (g0 : F -> F -> F) mesh (h y0 : F) (m : nat) :
  o_num_steps (self st) = Some (Z.of_nat m) -> o_y_0 (self st) = Some y0 ->
  o_mesh (self st) = Some mesh -> o_h (self st) = Some h ->
  o_f (self st) = Some g -> computes g g0 -> (m <= length mesh)%nat ->
  exists sol st',
    solve st = (Ok sol, st')
    /\ self st' = self st
    /\ length sol = S m
    /\ sol !! 0%nat = Some y0
    /\ (forall k : nat, (k < m)%nat ->
         exists t yk, mesh !! k = Some t /\ sol !! k = Some yk
           /\ sol !! S k = Some (f_add yk (f_mul h (g0 t yk))))
    /\ calls st' = calls st ++ zip (take m mesh) (take m sol).
Proof.
  intros En Ey Em Eh Ef Hg Hlen.
  set (y1 := <[0%nat := y0]> (replicate (S m) (f_of_Z 0))).
  destruct (euler_loop g g0 mesh h m 0 y1 st)
    as (sol & st' & Erun & Eself & Elen & Hlow & Hrec & Hcalls); auto.
  { unfold y1. rewrite length_insert, length_replicate. lia. }
  exists sol, st'.
  assert (Ly1 : length y1 = S m).
  { unfold y1. now rewrite length_insert, length_replicate. }
  split.
  - unfold solve.
    rewrite (bind_ok _ _ _ _ _ (getattr_some _ _ _ _ En)).
    replace (Z.of_nat m + 1) with (Z.of_nat (S m)) by lia.
    erewrite bind_ok by (unfold lift; rewrite np_zeros_nat; reflexivity).
    rewrite (bind_ok _ _ _ _ _ (getattr_some _ _ _ _ Ey)).
    erewrite bind_ok; cycle 1.
    { unfold lift. change 0 with (Z.of_nat 0).
      rewrite arr_set_nat by (rewrite length_replicate; lia). reflexivity. }
    rewrite (bind_ok _ _ _ _ _ (getattr_some _ _ _ _ En)).
    unfold range. change 0 with (Z.of_nat 0).
    erewrite bind_ok by exact Erun. reflexivity.
  - split; [exact Eself|]. split; [congruence|]. split.
    + rewrite Hlow by lia. unfold y1. apply list_lookup_insert_eq.
      rewrite length_replicate. lia.
    + split; [intros k Hk; apply Hrec; lia|]. exact Hcalls.
Qed.

(** ** [solve] with a deterministic callable *)

Lemma solve_step_det k y st st2 :
  same_inputs (self st) (self st2) ->
  (forall g, o_f (self st) = Some g -> deterministic g) ->
  fst (solve_step k y st) = fst (solve_step k y st2).
Proof.
  intros (Ef & _ & _ & Em & Eh) Hdet.
  unfold solve_step, bind, getattr, lift, call.
  rewrite <- Em. destruct (o_mesh (self st)) as [mesh|]; simpl; [|reflexivity].
  destruct (arr_get mesh k) as [t|]; simpl; [|reflexivity].
  destruct (arr_get y k) as [yk|]; simpl; [|reflexivity].
  rewrite <- Eh. destruct (o_h (self st)) as [h|]; simpl; [|reflexivity].
  rewrite <- Ef. destruct (o_f (self st)) as [g|]; simpl; [|reflexivity].
  specialize (Hdet g eq_refl (world st) (world st2) t yk).
  destruct (g (world st) t yk) as [r w], (g (world st2) t yk) as [r2 w2].
  simpl in Hdet. subst r2. destruct r as [v|e]; simpl; [|reflexivity].
  now destruct (arr_set y (k + 1) _).
Qed.

Lemma for_each_solve_step_det ks : forall y st st2,
  same_inputs (self st) (self st2) ->
  (forall g, o_f (self st) = Some g -> deterministic g) ->
  fst (for_each ks solve_step y st) = fst (for_each ks solve_step y st2).
Proof.
  induction ks as [|k ks IH]; intros y st st2 Hsame Hdet; simpl; [reflexivity|].
  unfold bind.
  pose proof (solve_step_det k y st st2 Hsame Hdet) as Hfst.
  pose proof (solve_step_frame k y st) as Hs1.
  pose proof (solve_step_frame k y st2) as Hs2.
  destruct (solve_step k y st) as [r1 st1], (solve_step k y st2) as [r2 st3].
  simpl in *. subst r2. destruct r1 as [y1|e]; simpl; [|reflexivity].
  apply IH; rewrite ?Hs1, ?Hs2; assumption.
Qed.

Lemma solve_det st st2 :
  same_inputs (self st) (self st2) ->
  (forall g, o_f (self st) = Some g -> deterministic g) ->
  fst (solve st) = fst (solve st2).
Proof.
  intros Hsame Hdet. pose proof Hsame as (_ & En & Ey & _ & _).
  unfold solve, bind, getattr, lift, ret.
  rewrite <- En. destruct (o_num_steps (self st)) as [n|] eqn:E; simpl; [|reflexivity].
  destruct (np_zeros (n + 1)) as [y|]; simpl; [|reflexivity].
  rewrite <- Ey. destruct (o_y_0 (self st)) as [y_0|]; simpl; [|reflexivity].
  destruct (arr_set y 0 y_0) as [y'|]; simpl; [|reflexivity].
  rewrite <- En, E; simpl.
  pose proof (for_each_solve_step_det (range n) y' st st2 Hsame Hdet) as Hfst.
  destruct (for_each (range n) solve_step y' st) as [r1 st1],
           (for_each (range n) solve_step y' st2) as [r2 st3].
  simpl in Hfst. subst r2. now destruct r1.
Qed.

(** ** Exceptions that are not validation failures *)

Lemma arr_index_raises y k e : arr_index y k = Raise e -> invalid_argument e = false.
Proof. unfold arr_index. destruct (_ && _); [discriminate|]. now intros [= <-]. Qed.

Lemma arr_get_raises y k e : arr_get y k = Raise e -> invalid_argument e = false.
Proof.
  unfold arr_get. destruct (arr_index y k) as [j|e'] eqn:E.
  - destruct (y !! j); [discriminate|]. now intros [= <-].
  - intros [= <-]. eapply arr_index_raises; eauto.
Qed.

Lemma arr_set_raises y k (x : F) e :
  arr_set y k x = Raise e -> invalid_argument e = false.
Proof.
  unfold arr_set. destruct (arr_index y k) as [j|e'] eqn:E; [discriminate|].
  intros [= <-]. eapply arr_index_raises; eauto.
Qed.

Lemma np_zeros_raises n e :
  np_zeros (F := F) n = Raise e -> invalid_argument e = false.
Proof. unfold np_zeros. destruct (n <? 0); [|discriminate]. now intros [= <-]. Qed.

Lemma np_linspace_raises (start stop : F) n e :
  np_linspace start stop n = Raise e -> invalid_argument e = false.
Proof. unfold np_linspace. destruct (n <? 0); [|discriminate]. now intros [= <-]. Qed.

Lemma py_float_of_int_raises n e :
  py_float_of_int (F := F) n = Raise e -> invalid_argument e = false.
Proof.
  unfold py_float_of_int. destruct (_ <? _); [discriminate|]. now intros [= <-].
Qed.

Lemma py_float_raises v e : py_float v = Raise e -> invalid_argument e = false.
Proof.
  destruct v; simpl; try (now intros [= <-]); try discriminate;
    apply py_float_of_int_raises.
Qed.

Lemma py_truediv_raises (a : F) n e :
  py_truediv a n = Raise e -> invalid_argument e = false.
Proof.
  unfold py_truediv. destruct (py_float_of_int n) as [d|e'] eqn:E.
  - destruct (n =? 0); [|discriminate]. now intros [= <-].
  - intros [= <-]. eapply py_float_of_int_raises; eauto.
Qed.

Lemma py_ge_raises v v' e : py_ge v v' = Raise e -> invalid_argument e = false.
Proof.
  destruct v, v'; simpl; try discriminate; now intros [= <-].
Qed.

Lemma create_1d_mesh_raises st e st' :
  create_1d_mesh st = (Raise e, st') -> invalid_argument e = false.
Proof.
  unfold create_1d_mesh, bind, getattr, lift.
  destruct (o_t_start (self st)) as [ts|]; simpl; [|now intros [= <- _]].
  destruct (o_t_end (self st)) as [te|]; simpl; [|now intros [= <- _]].
  destruct (o_num_steps (self st)) as [n|]; simpl; [|now intros [= <- _]].
  intros [= E _]. eapply np_linspace_raises; eauto.
Qed.

Lemma calc_step_size_raises st e st' :
  calc_step_size st = (Raise e, st') -> invalid_argument e = false.
Proof.
  unfold calc_step_size, bind, getattr, lift.
  destruct (o_t_end (self st)) as [te|]; simpl; [|now intros [= <- _]].
  destruct (o_t_start (self st)) as [ts|]; simpl; [|now intros [= <- _]].
  destruct (o_num_steps (self st)) as [n|]; simpl; [|now intros [= <- _]].
  intros [= E _]. eapply py_truediv_raises; eauto.
Qed.

Lemma solve_step_raises k y st e st' :
  solve_step k y st = (Raise e, st') -> invalid_argument e = false.
Proof.
  unfold solve_step, bind, getattr, lift, call.
  destruct (o_mesh (self st)) as [mesh|]; simpl; [|now intros [= <- _]].
  destruct (arr_get mesh k) as [t|] eqn:Et; simpl;
    [|intros [= <- _]; eapply arr_get_raises; eauto].
  destruct (arr_get y k) as [yk|] eqn:Ey; simpl;
    [|intros [= <- _]; eapply arr_get_raises; eauto].
  destruct (o_h (self st)) as [h|]; simpl; [|now intros [= <- _]].
  destruct (o_f (self st)) as [g|]; simpl; [|now intros [= <- _]].
  destruct (g (world st) t yk) as [[r|x] w]; simpl; [|now intros [= <- _]].
  destruct (arr_set y (k + 1) _) eqn:Es; [discriminate|].
  intros [= <- _]. eapply arr_set_raises; eauto.
Qed.

Lemma for_each_solve_step_raises ks : forall y st e st',
  for_each ks solve_step y st = (Raise e, st') -> invalid_argument e = false.
Proof.
  induction ks as [|k ks IH]; intros y st e st'; simpl; [discriminate|].
  unfold bind. destruct (solve_step k y st) as [[y1|e1] st1] eqn:E.
  - apply IH.
  - intros [= <- _]. eapply solve_step_raises; eauto.
Qed.

Lemma solve_raises st e st' : solve st = (Raise e, st') -> invalid_argument e = false.
Proof.
  unfold solve, bind, getattr, lift, ret.
  destruct (o_num_steps (self st)) as [n|] eqn:En; simpl; [|now intros [= <- _]].
  destruct (np_zeros (n + 1)) as [y|] eqn:Ez; simpl;
    [|intros [= <- _]; eapply np_zeros_raises; eauto].
  destruct (o_y_0 (self st)) as [y_0|]; simpl; [|now intros [= <- _]].
  destruct (arr_set y 0 y_0) as [y'|] eqn:Es; simpl;
    [|intros [= <- _]; eapply arr_set_raises; eauto].
  rewrite En; simpl.
  destruct (for_each (range n) solve_step y' st) as [[y1|e1] st1] eqn:E;
    [discriminate|].
  intros [= <- _]. eapply for_each_solve_step_raises; eauto.
Qed.

(** ** [__init__], check by check *)

Lemma init_unfold (f t_start t_end y_0 num_steps : PyVal F W) st :
  __init__ f t_start t_end y_0 num_steps st =
  match py_callable f with
  | None => (Raise NotCallable, st)
  | Some g =>
    let st1 := update_self (with_f g) st in
    if negb (isinstance_int_float t_start) || negb (isinstance_int_float t_end)
    then (Raise NotANumber_bounds, st1)
    else
      match py_ge t_start t_end with
      | Raise e => (Raise e, st1)
      | Ok true => (Raise RangeViolation, st1)
      | Ok false =>
        match py_float t_start with
        | Raise e => (Raise e, st1)
        | Ok ts =>
          let st2 := update_self (with_t_start ts) st1 in
          match py_float t_end with
          | Raise e => (Raise e, st2)
          | Ok te =>
            let st3 := update_self (with_t_end te) st2 in
            match (if isinstance_int num_steps then int_value num_steps else None) with
            | None => (Raise InvalidStepCount, st3)
            | Some n =>
              if n <=? 0 then (Raise InvalidStepCount, st3)
              else
                let st4 := update_self (with_num_steps n) st3 in
                if negb (isinstance_int_float y_0) || isinstance_bool y_0
                then (Raise NotANumber_y_0, st4)
                else
                  match py_float y_0 with
                  | Raise e => (Raise e, st4)
                  | Ok y0 => compute_derived (update_self (with_y_0 y0) st4)
                  end
            end
          end
        end
      end
  end.
Proof.
  unfold __init__, bind, setattr, raise_if, lift, raise, ret.
  destruct (py_callable f) as [g|]; simpl; [|reflexivity].
  destruct (negb _ || negb _); simpl; [reflexivity|].
  destruct (py_ge t_start t_end) as [[|]|]; simpl; try reflexivity.
  destruct (py_float t_start) as [ts|]; simpl; [|reflexivity].
  destruct (py_float t_end) as [te|]; simpl; [|reflexivity].
  destruct (if isinstance_int num_steps then int_value num_steps else None) as [n|];
    simpl; [|reflexivity].
  destruct (n <=? 0); simpl; [reflexivity|].
  destruct (negb _ || _); simpl; [reflexivity|].
  destruct (py_float y_0) as [y0|]; simpl; reflexivity.
Qed.

Lemma compute_derived_unfold st :
  compute_derived st =
  match fst (create_1d_mesh st) with
  | Raise e => (Raise e, st)
  | Ok mesh =>
    let st1 := update_self (with_mesh mesh) st in
    match fst (calc_step_size st1) with
    | Raise e => (Raise e, st1)
    | Ok h =>
      match solve (update_self (with_h h) st1) with
      | (Raise e, st3) => (Raise e, st3)
      | (Ok solution, st3) => (Ok tt, update_self (with_solution solution) st3)
      end
    end
  end.
Proof.
  unfold compute_derived, bind, setattr.
  pose proof (create_1d_mesh_frame st) as H1.
  destruct (create_1d_mesh st) as [[mesh|e] st']; simpl in *; subst st';
    [|reflexivity].
  pose proof (calc_step_size_frame (update_self (with_mesh mesh) st)) as H2.
  destruct (calc_step_size _) as [[h|e] st']; simpl in *; subst st'; [|reflexivity].
  now destruct (solve _) as [[sol|e] st'].
Qed.

Lemma compute_derived_raises st e st' :
  compute_derived st = (Raise e, st') -> invalid_argument e = false.
Proof.
  rewrite compute_derived_unfold.
  pose proof (create_1d_mesh_raises st) as H1.
  destruct (create_1d_mesh st) as [[mesh|e1] st1]; simpl;
    [|intros [= <- _]; eapply H1; eauto].
  pose proof (calc_step_size_raises (update_self (with_mesh mesh) st)) as H2.
  destruct (calc_step_size _) as [[h|e2] st2]; simpl;
    [|intros [= <- _]; eapply H2; eauto].
  destruct (solve _) as [[sol|e3] st3] eqn:E3; [discriminate|].
  intros [= <- _]. eapply solve_raises; eauto.
Qed.

(** ** A successful construction *)

Lemma Euler1D_Solve_ok_inv (f t_start t_end y_0 num_steps : PyVal F W) st st1 :
  Euler1D_Solve f t_start t_end y_0 num_steps st = (Ok tt, st1) ->
  exists g ts te n (y0 : F) mesh h sol st',
    accepted f t_start t_end y_0 num_steps g ts te n y0
    /\ np_linspace ts te (n + 1) = Ok mesh
    /\ py_truediv (f_sub te ts) n = Ok h
    /\ solve {| self := solver_obj g ts te n y0 mesh h None;
                world := world st; calls := calls st |} = (Ok sol, st')
    /\ self st' = solver_obj g ts te n y0 mesh h None
    /\ st1 = update_self (with_solution sol) st'
    /\ self st1 = solver_obj g ts te n y0 mesh h (Some sol).
Proof.
  unfold Euler1D_Solve. rewrite init_unfold.
  destruct (py_callable f) as [g|] eqn:Ef; [|discriminate]. cbv zeta.
  destruct (isinstance_int_float t_start) eqn:Its; [|discriminate].
  destruct (isinstance_int_float t_end) eqn:Ite; [|discriminate]. simpl negb. simpl orb.
  cbv iota.
  destruct (py_ge t_start t_end) as [[|]|] eqn:Ege; try discriminate.
  destruct (py_float t_start) as [ts|] eqn:Fts; [|discriminate].
  destruct (py_float t_end) as [te|] eqn:Fte; [|discriminate].
  destruct (isinstance_int num_steps) eqn:In; [|discriminate].
  destruct (int_value num_steps) as [n|] eqn:Vn; [|discriminate].
  destruct (Z.leb_spec n 0) as [|Hn]; [discriminate|].
  destruct (isinstance_int_float y_0) eqn:Iy; [|discriminate].
  destruct (isinstance_bool y_0) eqn:By; [discriminate|]. simpl negb. simpl orb.
  cbv iota.
  destruct (py_float y_0) as [y0|] eqn:Fy; [|discriminate].
  rewrite compute_derived_unfold.
  erewrite create_1d_mesh_run by reflexivity. simpl fst.
  destruct (np_linspace ts te (n + 1)) as [mesh|] eqn:Em; [|discriminate].
  cbv beta iota zeta.
  destruct (py_truediv (f_sub te ts) n) as [h|] eqn:Eh; [|discriminate].
  cbv beta iota zeta.
  match goal with |- context [solve ?s] => set (stb := s) end.
  pose proof (solve_frame stb) as Hframe.
  destruct (solve stb) as [[sol|e] st'] eqn:Es; [|discriminate].
  intros [= <-]. simpl in Hframe.
  exists g, ts, te, n, y0, mesh, h, sol, st'.
  split; [unfold accepted; tauto|].
  split; [exact Em|]. split; [exact Eh|].
  split; [exact Es|]. split; [exact Hframe|]. split; [reflexivity|].
  simpl. now rewrite Hframe.
Qed.

Lemma computes_deterministic g (g0 : F -> F -> F) : computes g g0 -> deterministic g.
Proof. intros Hg w w' t x. now rewrite !Hg. Qed.

Lemma same_inputs_solver_obj o g (ts te : F) n (x0 : F) mesh (h : F) sol sol' :
  o = solver_obj g ts te n x0 mesh h sol ->
  same_inputs o (solver_obj g ts te n x0 mesh h sol').
Proof. intros ->. now repeat split. Qed.

(** On a constructed solver, [solve()] returns what [__init__] stored in
    [solution], provided the callable is deterministic. *)
Lemma solve_again (f t_start t_end y_0 num_steps : PyVal F W) st0 st1 :
  Euler1D_Solve f t_start t_end y_0 num_steps st0 = (Ok tt, st1) ->
  (forall g, o_f (self st1) = Some g -> deterministic g) ->
  forall st, self st = self st1 ->
    exists sol st',
      solve st = (Ok sol, st') /\ self st' = self st
      /\ o_solution (self st1) = Some sol.
Proof.
  intros Hrun Hdet st Hst.
  destruct (Euler1D_Solve_ok_inv _ _ _ _ _ _ _ Hrun)
    as (g & ts & te & n & x0 & mesh & h & sol & sta & _ & _ & _ & Hsol & _ & _ & Hself).
  pose proof (solve_frame st) as Hframe.
  assert (Hfst : fst (solve st) = Ok sol).
  { match type of Hsol with solve ?s = _ =>
      rewrite (solve_det st s), Hsol; [reflexivity| |] end.
    - simpl. rewrite Hst. eapply same_inputs_solver_obj; eauto.
    - rewrite Hst. exact Hdet. }
  destruct (solve st) as [r st']. simpl in *. subst r.
  exists sol, st'. split; [reflexivity|]. split; [exact Hframe|].
  now rewrite Hself.
Qed.
End Facts.

Section Construction.
Context {F : Type} {ops : FloatOps F} {W : Type}.
Implicit Types (st : St F W) (g : callable F W) (v : PyVal F W).

(** ** Numbers always compare and convert, up to overflow *)

Lemma py_ge_numeric v v' :
  isinstance_int_float v = true -> isinstance_int_float v' = true ->
  exists b, py_ge v v' = Ok b.
Proof. destruct v, v'; simpl; try discriminate; eauto. Qed.

Lemma py_float_numeric v e :
  isinstance_int_float v = true -> py_float v = Raise e ->
  exists msg, e = OverflowError msg.
Proof.
  destruct v; simpl; try discriminate; intros _; unfold py_float_of_int;
    destruct (_ <? _); try discriminate; intros [= <-]; eauto.
Qed.

(** ** The constructor returns on valid arguments *)

Lemma Euler1D_Solve_succeeds (f t_start t_end y_0 num_steps : PyVal F W) st
    g (ts te : F) (n : Z) (x0 : F) (g0 : F -> F -> F) :
  accepted f t_start t_end y_0 num_steps g ts te n x0 ->
  n < float_int_bound -> computes g g0 ->
  exists st1 mesh sol,
    Euler1D_Solve f t_start t_end y_0 num_steps st = (Ok tt, st1)
    /\ self st1 = solver_obj g ts te n x0 mesh (f_div (f_sub te ts) (f_of_Z n)) (Some sol).
Proof.
  intros (Hf & Its & Ite & Hge & Fts & Fte & In & Vn & Hn & Iy & By & Fy) Hbound Hg.
  unfold Euler1D_Solve. rewrite init_unfold.
  rewrite Hf, Its, Ite, Hge, Fts, Fte, In, Vn, Iy, By, Fy. simpl negb. simpl orb.
  cbv beta iota zeta.
  destruct (Z.leb_spec n 0) as [|_]; [lia|].
  rewrite compute_derived_unfold.
  erewrite create_1d_mesh_run by reflexivity. simpl fst.
  destruct (np_linspace_samples ts te (Z.to_nat n)) as (mesh & Em & Lm & _); [lia|].
  rewrite Z2Nat.id in Em by lia. rewrite Em. cbv beta iota zeta.
  assert (Eh : py_truediv (f_sub te ts) n = Ok (f_div (f_sub te ts) (f_of_Z n))).
  { unfold py_truediv, py_float_of_int.
    destruct (Z.ltb_spec (Z.abs n) float_int_bound) as [_|]; [|lia].
    destruct (Z.eqb_spec n 0); [lia|reflexivity]. }
  rewrite Eh. cbv beta iota zeta.
  match goal with |- context [solve ?s] => set (stb := s) end.
  destruct (solve_computes stb g g0 mesh (f_div (f_sub te ts) (f_of_Z n)) x0 (Z.to_nat n))
    as (sol & st' & Erun & Eself & _); try reflexivity; auto; try lia.
  { simpl. now rewrite Z2Nat.id by lia. }
  rewrite Erun. eexists _, mesh, sol. split; [reflexivity|].
  simpl. now rewrite Eself.
Qed.

(** ** Integers in place of floats *)

Lemma Euler1D_Solve_int_float (f num_steps : PyVal F W) (a b c : Z) (ta tb tc : F) st :
  py_float_of_int a = Ok ta -> py_float_of_int b = Ok tb ->
  py_float_of_int c = Ok tc ->
  f_leb tb ta = (b <=? a) ->
  Euler1D_Solve f (PyInt a) (PyInt b) (PyInt c) num_steps st
  = Euler1D_Solve f (PyFloat ta) (PyFloat tb) (PyFloat tc) num_steps st.
Proof.
  intros Fa Fb Fc Hord. unfold Euler1D_Solve. rewrite !init_unfold. simpl.
  now rewrite Fa, Fb, Fc, Hord.
Qed.
End Construction.

(** * The claims *)

Section Claims.
Context {F : Type} {ops : FloatOps F} {W : Type}.
Implicit Types (st : St F W) (g : callable F W).

(** C1.  For every validated problem, that is for every solver
    [Euler1D_Solve] has constructed, whose derivative callable computes a
    function [g0]: [solve()] returns [num_steps + 1] floats, the first is
    [y_0], each next one is [solution[k] + h * g0(mesh[k], solution[k])],
    and the callable is invoked exactly [num_steps] times, the k-th time
    with [(mesh[k], solution[k])], the value not yet updated.  It is also
    what the constructor stored in [solution]. *)
Theorem solve_euler_recurrence g (g0 : F -> F -> F)
    (t_start t_end y_0 num_steps : PyVal F W) st0 st1 :
  Euler1D_Solve (PyFun g) t_start t_end y_0 num_steps st0 = (Ok tt, st1) ->
  computes g g0 ->
  exists (n : nat) (x0 h : F) (mesh : list F),
    o_num_steps (self st1) = Some (Z.of_nat n)
    /\ py_float y_0 = Ok x0 /\ o_y_0 (self st1) = Some x0
    /\ o_h (self st1) = Some h /\ o_mesh (self st1) = Some mesh
    /\ forall st, self st = self st1 ->
       exists sol st',
         solve st = (Ok sol, st')
         /\ length sol = S n
         /\ sol !! 0%nat = Some x0
         /\ (forall k : nat, (k < n)%nat ->
               exists t yk, mesh !! k = Some t /\ sol !! k = Some yk
                 /\ sol !! S k = Some (f_add yk (f_mul h (g0 t yk))))
         /\ calls st' = calls st ++ zip (take n mesh) (take n sol)
         /\ length (calls st') = (length (calls st) + n)%nat
         /\ o_solution (self st1) = Some sol.
Proof.
  intros Hrun Hg.
  destruct (Euler1D_Solve_ok_inv _ _ _ _ _ _ _ Hrun)
    as (g' & ts & te & n & x0 & mesh & h & sol0 & sta & Hacc & Hmesh & _ & _ & _ & _ & Hself).
  destruct Hacc as (Hf & _ & _ & _ & _ & _ & _ & _ & Hn & _ & _ & Hy).
  simpl in Hf. injection Hf as <-.
  apply np_linspace_length in Hmesh.
  exists (Z.to_nat n), x0, h, mesh. rewrite Hself. simpl.
  rewrite Z2Nat.id by lia.
  repeat (split; [reflexivity || assumption|]).
  intros st Hst.
  destruct (solve_computes st g g0 mesh h x0 (Z.to_nat n))
    as (sol & st' & Erun & _ & Elen & E0 & Hrec & Hcalls);
    rewrite ?Hst; simpl; rewrite ?Z2Nat.id by lia; auto; try lia.
  assert (Hdet : forall g', o_f (self st1) = Some g' -> deterministic g').
  { rewrite Hself. simpl. intros ? [= <-]. eapply computes_deterministic; eauto. }
  destruct (solve_again _ _ _ _ _ _ _ Hrun Hdet st (eq_trans Hst (eq_sym Hself)))
    as (sol' & st'' & Erun' & _ & Hstored).
  rewrite Erun in Erun'. injection Erun' as <- <-.
  exists sol, st'. split; [exact Erun|]. split; [exact Elen|].
  split; [exact E0|]. split; [exact Hrec|]. split; [exact Hcalls|].
  split; [|now rewrite Hself in Hstored].
  rewrite Hcalls, length_app, length_zip, !length_take. lia.
Qed.

(** C5.  On every constructed solver [calc_step_size()] returns
    [(t_end - t_start) / num_steps], the float division of the float
    difference by the float [num_steps], which is also the stored [h];
    [num_steps] is positive there, so neither the zero-divisor branch nor
    any other failure is reached, and the state is left as it was. *)
Theorem calc_step_size_total (f t_start t_end y_0 num_steps : PyVal F W) st0 st1 :
  Euler1D_Solve f t_start t_end y_0 num_steps st0 = (Ok tt, st1) ->
  exists (ts te : F) (n : Z),
    o_t_start (self st1) = Some ts /\ o_t_end (self st1) = Some te
    /\ o_num_steps (self st1) = Some n /\ 0 < n
    /\ o_h (self st1) = Some (f_div (f_sub te ts) (f_of_Z n))
    /\ forall st, self st = self st1 ->
         calc_step_size st = (Ok (f_div (f_sub te ts) (f_of_Z n)), st).
Proof.
  intros Hrun.
  destruct (Euler1D_Solve_ok_inv _ _ _ _ _ _ _ Hrun)
    as (g & ts & te & n & x0 & mesh & h & sol & sta & Hacc & _ & Hh & _ & _ & _ & Hself).
  destruct Hacc as (_ & _ & _ & _ & _ & _ & _ & _ & Hn & _).
  assert (Eh : py_truediv (f_sub te ts) n = Ok (f_div (f_sub te ts) (f_of_Z n))).
  { unfold py_truediv, py_float_of_int in *.
    destruct (Z.abs n <? float_int_bound); [|discriminate].
    destruct (Z.eqb_spec n 0); [lia|reflexivity]. }
  rewrite Eh in Hh. injection Hh as <-.
  exists ts, te, n. rewrite Hself. simpl.
  repeat (split; [reflexivity || assumption|]).
  intros st Hst.
  rewrite (calc_step_size_run st ts te n) by (rewrite Hst; reflexivity).
  now rewrite Eh.
Qed.

(** C6.  On every constructed solver with a deterministic derivative
    function, [solve()] called twice in a row returns the same list both
    times, the one the constructor stored, and leaves the instance as it
    was. *)
Theorem solve_idempotent g (t_start t_end y_0 num_steps : PyVal F W) st0 st1 :
  Euler1D_Solve (PyFun g) t_start t_end y_0 num_steps st0 = (Ok tt, st1) ->
  deterministic g ->
  forall st, self st = self st1 ->
    exists sol st' st'',
      solve st = (Ok sol, st') /\ solve st' = (Ok sol, st'')
      /\ self st' = self st /\ self st'' = self st
      /\ o_solution (self st1) = Some sol.
Proof.
  intros Hrun Hdet st Hst.
  assert (Hdet' : forall g', o_f (self st1) = Some g' -> deterministic g').
  { destruct (Euler1D_Solve_ok_inv _ _ _ _ _ _ _ Hrun)
      as (g' & ts & te & n & x0 & mesh & h & sol & sta & Hacc & _ & _ & _ & _ & _ & Hself).
    destruct Hacc as (Hf & _). simpl in Hf. injection Hf as <-.
    rewrite Hself. simpl. now intros ? [= <-]. }
  destruct (solve_again _ _ _ _ _ _ _ Hrun Hdet' st Hst)
    as (sol & st' & Erun & Eself & Hstored).
  destruct (solve_again _ _ _ _ _ _ _ Hrun Hdet' st')
    as (sol' & st'' & Erun' & Eself' & Hstored'); [congruence|].
  assert (sol' = sol) as -> by congruence.
  exists sol, st', st''. repeat split; congruence.
Qed.

(** C8.  Whenever an argument is invalid, or construction stops on one of
    the five validation errors, construction raises, and it does so before
    anything is computed: the derivative function has not been called (the
    call log and the callable's world are as before), and [mesh], [h] and
    [solution] are not set on the instance, which the caller never gets.
    The exception is a validation error, or the [OverflowError] of
    [float()] on an integer bound too large for a float. *)
Theorem invalid_input_fails_before_computing
    (f t_start t_end y_0 num_steps : PyVal F W) st :
  valid_arguments f t_start t_end y_0 num_steps = false
  \/ (exists e, fst (Euler1D_Solve f t_start t_end y_0 num_steps st) = Raise e
                /\ invalid_argument e = true) ->
  exists e st',
    Euler1D_Solve f t_start t_end y_0 num_steps st = (Raise e, st')
    /\ (invalid_argument e = true \/ exists msg, e = OverflowError msg)
    /\ calls st' = calls st /\ world st' = world st
    /\ o_mesh (self st') = None /\ o_h (self st') = None
    /\ o_solution (self st') = None.
Proof.
  unfold Euler1D_Solve, valid_arguments. rewrite init_unfold.
  destruct (py_callable f) as [g|]; simpl;
    [|intros _; eexists _, _; split; [reflexivity|]; now repeat split; auto].
  destruct (isinstance_int_float t_start) eqn:Its; simpl;
    [|intros _; eexists _, _; split; [reflexivity|]; now repeat split; auto].
  destruct (isinstance_int_float t_end) eqn:Ite; simpl;
    [|intros _; eexists _, _; split; [reflexivity|]; now repeat split; auto].
  destruct (py_ge_numeric _ _ Its Ite) as [b ->]. destruct b; simpl;
    [intros _; eexists _, _; split; [reflexivity|]; now repeat split; auto|].
  destruct (py_float t_start) as [ts|e1] eqn:Fts; simpl.
  2:{ intros _. destruct (py_float_numeric _ _ Its Fts) as [msg ->].
      eexists _, _; split; [reflexivity|]. repeat split; eauto. }
  destruct (py_float t_end) as [te|e1] eqn:Fte; simpl.
  2:{ intros _. destruct (py_float_numeric _ _ Ite Fte) as [msg ->].
      eexists _, _; split; [reflexivity|]. repeat split; eauto. }
  destruct (isinstance_int num_steps); simpl;
    [|intros _; eexists _, _; split; [reflexivity|]; now repeat split; auto].
  destruct (int_value num_steps) as [n|]; simpl;
    [|intros _; eexists _, _; split; [reflexivity|]; now repeat split; auto].
  destruct (Z.leb_spec n 0) as [|Hn]; simpl;
    [intros _; eexists _, _; split; [reflexivity|]; now repeat split; auto|].
  destruct (Z.ltb_spec 0 n) as [_|]; [|lia]. simpl.
  destruct (isinstance_int_float y_0) eqn:Iy; simpl;
    [|intros _; eexists _, _; split; [reflexivity|]; now repeat split; auto].
  destruct (isinstance_bool y_0); simpl;
    [intros _; eexists _, _; split; [reflexivity|]; now repeat split; auto|].
  destruct (py_float y_0) as [x0|e1] eqn:Fy; simpl.
  2:{ intros _. destruct (py_float_numeric _ _ Iy Fy) as [msg ->].
      eexists _, _; split; [reflexivity|]. repeat split; eauto. }
  intros [|(e & He & Hinv)]; [discriminate|].
  match type of He with fst (compute_derived ?s) = _ =>
    destruct (compute_derived s) as [r st'] eqn:E end.
  simpl in He. subst r. apply compute_derived_raises in E. congruence.
Qed.

(** C7.  Once the checks on [f], the bounds and [num_steps] have passed,
    construction fails with [TypeError("y_0 must be a real number.")]
    exactly when [y_0] is not an [int] or [float] instance or is a [bool]:
    every string and both booleans are rejected, every other [int] and
    every [float] gets past the check.  Such a [y_0], when [float(y_0)] does
    not overflow, is stored as that float by a construction that returns
    (given a derivative function that returns). *)
Theorem y_0_must_be_a_real_number
    (f t_start t_end y_0 num_steps : PyVal F W) st g (ts te : F) (n : Z) :
  py_callable f = Some g ->
  isinstance_int_float t_start = true -> isinstance_int_float t_end = true ->
  py_ge t_start t_end = Ok false ->
  py_float t_start = Ok ts -> py_float t_end = Ok te ->
  isinstance_int num_steps = true -> int_value num_steps = Some n -> 0 < n ->
  (fst (Euler1D_Solve f t_start t_end y_0 num_steps st) = Raise NotANumber_y_0
   <-> isinstance_int_float y_0 = false \/ isinstance_bool y_0 = true)
  /\ (forall (x0 : F) (g0 : F -> F -> F),
        isinstance_int_float y_0 = true -> isinstance_bool y_0 = false ->
        py_float y_0 = Ok x0 -> computes g g0 -> n < float_int_bound ->
        exists st1,
          Euler1D_Solve f t_start t_end y_0 num_steps st = (Ok tt, st1)
          /\ o_y_0 (self st1) = Some x0).
Proof.
  intros Hf Its Ite Hge Fts Fte In Vn Hn. split.
  - unfold Euler1D_Solve. rewrite init_unfold.
    rewrite Hf, Its, Ite, Hge, Fts, Fte, In, Vn. simpl negb. simpl orb.
    cbv beta iota zeta.
    destruct (Z.leb_spec n 0) as [|_]; [lia|].
    destruct (isinstance_int_float y_0) eqn:Iy; simpl; [|intuition].
    destruct (isinstance_bool y_0) eqn:By; simpl; [intuition|].
    split; [|intros [|]; discriminate].
    destruct (py_float y_0) as [x0|e] eqn:Fy; simpl.
    + match goal with |- fst (compute_derived ?s) = _ -> _ =>
        destruct (compute_derived s) as [r st'] eqn:E end.
      simpl. intros ->. apply compute_derived_raises in E. discriminate.
    + intros [= ->]. apply py_float_raises in Fy. discriminate.
  - intros x0 g0 Iy By Fy Hg Hbound.
    destruct (Euler1D_Solve_succeeds f t_start t_end y_0 num_steps st g ts te n x0 g0)
      as (st1 & mesh & sol & Erun & Eself); auto.
    { unfold accepted. tauto. }
    exists st1. split; [exact Erun|]. now rewrite Eself.
Qed.

(** C9.  Integer bounds and an integer initial value are accepted and
    stored as [float(...)] of them.  Let [ta], [tb], [tc] be the floats of
    the integers [a], [b], [c], and let the float bounds compare as the
    integer bounds do (they do when the conversion is exact).  Then
    construction from the integers and construction from the floats are
    the same computation: same result, same instance, same calls.  When
    [a < b] and the other arguments are valid, both return a solver whose
    [t_start], [t_end], [y_0] are [ta], [tb], [tc]. *)
Theorem integer_arguments_behave_as_floats
    (f num_steps : PyVal F W) (a b c : Z) (ta tb tc : F) st :
  py_float_of_int a = Ok ta -> py_float_of_int b = Ok tb ->
  py_float_of_int c = Ok tc ->
  f_leb tb ta = (b <=? a) ->
  Euler1D_Solve f (PyInt a) (PyInt b) (PyInt c) num_steps st
  = Euler1D_Solve f (PyFloat ta) (PyFloat tb) (PyFloat tc) num_steps st
  /\ (forall st1,
        Euler1D_Solve f (PyInt a) (PyInt b) (PyInt c) num_steps st = (Ok tt, st1) ->
        o_t_start (self st1) = Some ta /\ o_t_end (self st1) = Some tb
        /\ o_y_0 (self st1) = Some tc)
  /\ (forall g (g0 : F -> F -> F) (n : Z),
        py_callable f = Some g -> computes g g0 -> a < b ->
        isinstance_int num_steps = true -> int_value num_steps = Some n ->
        0 < n < float_int_bound ->
        exists st1,
          Euler1D_Solve f (PyInt a) (PyInt b) (PyInt c) num_steps st = (Ok tt, st1)).
Proof.
  intros Fa Fb Fc Hord.
  split; [now apply Euler1D_Solve_int_float|]. split.
  - intros st1 Hrun.
    destruct (Euler1D_Solve_ok_inv _ _ _ _ _ _ _ Hrun)
      as (g & ts & te & n & x0 & mesh & h & sol & sta & Hacc & _ & _ & _ & _ & _ & Hself).
    destruct Hacc as (_ & _ & _ & _ & Fts & Fte & _ & _ & _ & _ & _ & Fy).
    simpl in Fts, Fte, Fy. rewrite Hself. simpl. repeat split; congruence.
  - intros g g0 n Hf Hg Hab In Vn Hn.
    destruct (Euler1D_Solve_succeeds f (PyInt a) (PyInt b) (PyInt c) num_steps st
                g ta tb n tc g0) as (st1 & mesh & sol & Erun & _); auto; try lia.
    { unfold accepted. simpl. repeat split; auto; try lia.
      destruct (Z.leb_spec b a); [lia|reflexivity]. }
    eauto.
Qed.

(** ** The other three checks, as the code makes them *)

(** A run that ends in the computed part of [__init__] does not end on a
    validation error. *)
Lemma compute_derived_not_invalid st e :
  invalid_argument e = true -> fst (compute_derived st) <> Raise e.
Proof.
  intros Hinv Hfst. destruct (compute_derived st) as [r st'] eqn:E.
  simpl in Hfst. subst r. apply compute_derived_raises in E. congruence.
Qed.

Lemma py_float_not_invalid (v : PyVal F W) e e' :
  invalid_argument e = true -> py_float v = Raise e' -> e' <> e.
Proof. intros Hinv Hv ->. apply py_float_raises in Hv. congruence. Qed.

(** Construction fails with [TypeError("f must be a callable function.")]
    exactly when [f] is not callable. *)
Theorem f_must_be_callable (f t_start t_end y_0 num_steps : PyVal F W) st :
  fst (Euler1D_Solve f t_start t_end y_0 num_steps st) = Raise NotCallable
  <-> py_callable f = None.
Proof.
  unfold Euler1D_Solve. rewrite init_unfold.
  destruct (py_callable f) as [g|]; [|tauto].
  split; [|discriminate]. cbv zeta.
  destruct (negb _ || negb _); [discriminate|].
  destruct (py_ge t_start t_end) as [[|]|e] eqn:Ege;
    [discriminate| |intros [= ->]; apply py_ge_raises in Ege; discriminate].
  destruct (py_float t_start) as [ts|e] eqn:Fts;
    [|intros [= ->]; apply py_float_raises in Fts; discriminate].
  destruct (py_float t_end) as [te|e] eqn:Fte;
    [|intros [= ->]; apply py_float_raises in Fte; discriminate].
  destruct (if isinstance_int num_steps then _ else _) as [n|]; [|discriminate].
  destruct (n <=? 0); [discriminate|].
  destruct (negb _ || _); [discriminate|].
  destruct (py_float y_0) as [x0|e] eqn:Fy;
    [|intros [= ->]; apply py_float_raises in Fy; discriminate].
  intros H. now apply compute_derived_not_invalid in H.
Qed.

(** With a callable [f], construction fails with
    [TypeError("t_start and t_end must be numbers.")] exactly when one of
    the bounds is not an [int] or [float] instance; a [bool] is one. *)
Theorem bounds_must_be_int_or_float (f t_start t_end y_0 num_steps : PyVal F W) st g :
  py_callable f = Some g ->
  (fst (Euler1D_Solve f t_start t_end y_0 num_steps st) = Raise NotANumber_bounds
   <-> isinstance_int_float t_start = false \/ isinstance_int_float t_end = false).
Proof.
  intros Hf. unfold Euler1D_Solve. rewrite init_unfold, Hf. cbv zeta.
  destruct (isinstance_int_float t_start), (isinstance_int_float t_end); simpl;
    try tauto.
  split; [|intros [|]; discriminate].
  destruct (py_ge t_start t_end) as [[|]|e] eqn:Ege;
    [discriminate| |intros [= ->]; apply py_ge_raises in Ege; discriminate].
  destruct (py_float t_start) as [ts|e] eqn:Fts;
    [|intros [= ->]; apply py_float_raises in Fts; discriminate].
  destruct (py_float t_end) as [te|e] eqn:Fte;
    [|intros [= ->]; apply py_float_raises in Fte; discriminate].
  destruct (if isinstance_int num_steps then _ else _) as [n|]; [|discriminate].
  destruct (n <=? 0); [discriminate|].
  destruct (negb _ || _); [discriminate|].
  destruct (py_float y_0) as [x0|e] eqn:Fy;
    [|intros [= ->]; apply py_float_raises in Fy; discriminate].
  intros H. now apply compute_derived_not_invalid in H.
Qed.

(** With a callable [f] and numeric bounds, construction fails with
    [ValueError("t_start must be less than t_end.")] exactly when
    [t_start >= t_end] is true. *)
Theorem t_start_must_be_less_than_t_end
    (f t_start t_end y_0 num_steps : PyVal F W) st g :
  py_callable f = Some g ->
  isinstance_int_float t_start = true -> isinstance_int_float t_end = true ->
  (fst (Euler1D_Solve f t_start t_end y_0 num_steps st) = Raise RangeViolation
   <-> py_ge t_start t_end = Ok true).
Proof.
  intros Hf Its Ite. unfold Euler1D_Solve. rewrite init_unfold, Hf, Its, Ite.
  cbv zeta. simpl negb. simpl orb. cbv iota.
  destruct (py_ge t_start t_end) as [[|]|e] eqn:Ege;
    [tauto| |split; [intros [= ->]; apply py_ge_raises in Ege|]; discriminate].
  split; [|discriminate].
  destruct (py_float t_start) as [ts|e] eqn:Fts;
    [|intros [= ->]; apply py_float_raises in Fts; discriminate].
  destruct (py_float t_end) as [te|e] eqn:Fte;
    [|intros [= ->]; apply py_float_raises in Fte; discriminate].
  destruct (if isinstance_int num_steps then _ else _) as [n|]; [|discriminate].
  destruct (n <=? 0); [discriminate|].
  destruct (negb _ || _); [discriminate|].
  destruct (py_float y_0) as [x0|e] eqn:Fy;
    [|intros [= ->]; apply py_float_raises in Fy; discriminate].
  intros H. now apply compute_derived_not_invalid in H.
Qed.

(** Once the checks on [f] and the bounds have passed, construction fails
    with [ValueError("num_steps must be a pos integer.")] exactly when
    [num_steps] is not an [int] instance or stands for an integer that is
    zero or negative.  [False] stands for 0 and is rejected; [True] stands
    for 1 and is not. *)
Theorem num_steps_must_be_a_positive_int
    (f t_start t_end y_0 num_steps : PyVal F W) st g (ts te : F) :
  py_callable f = Some g ->
  isinstance_int_float t_start = true -> isinstance_int_float t_end = true ->
  py_ge t_start t_end = Ok false ->
  py_float t_start = Ok ts -> py_float t_end = Ok te ->
  (fst (Euler1D_Solve f t_start t_end y_0 num_steps st) = Raise InvalidStepCount
   <-> isinstance_int num_steps = false
       \/ exists n, int_value num_steps = Some n /\ n <= 0).
Proof.
  intros Hf Its Ite Hge Fts Fte. unfold Euler1D_Solve.
  rewrite init_unfold, Hf, Its, Ite, Hge, Fts, Fte.
  cbv zeta. simpl negb. simpl orb. cbv iota.
  destruct (isinstance_int num_steps) eqn:In.
  2:{ split; auto. }
  destruct (int_value num_steps) as [n|] eqn:Vn.
  2:{ destruct num_steps; discriminate. }
  destruct (Z.leb_spec n 0) as [Hle|Hgt].
  { split; eauto. }
  split.
  - destruct (negb _ || _); [discriminate|].
    destruct (py_float y_0) as [x0|e] eqn:Fy;
      [|intros [= ->]; apply py_float_raises in Fy; discriminate].
    intros H. now apply compute_derived_not_invalid in H.
  - intros [|(m & [= <-] & Hm)]; [discriminate|lia].
Qed.

(** On every constructed solver [create_1d_mesh()] returns the stored
    mesh, whatever the arithmetic: [num_steps + 1] floats, the last of them [t_end]
    itself, and the one at each index [i < num_steps] the float
    [i * h + t_start], where [h] is the stored step
    [(t_end - t_start) / num_steps]; when that [h] has rounded to zero the
    sample is [(i / num_steps) * (t_end - t_start) + t_start] instead. *)
Lemma create_1d_mesh_samples (f t_start t_end y_0 num_steps : PyVal F W) st0 st1 :
  Euler1D_Solve f t_start t_end y_0 num_steps st0 = (Ok tt, st1) ->
  exists (ts te h : F) (n : nat) (mesh : list F),
    o_t_start (self st1) = Some ts /\ o_t_end (self st1) = Some te
    /\ o_num_steps (self st1) = Some (Z.of_nat n) /\ (1 <= n)%nat
    /\ o_h (self st1) = Some h /\ h = f_div (f_sub te ts) (f_of_Z (Z.of_nat n))
    /\ o_mesh (self st1) = Some mesh
    /\ (forall st, self st = self st1 -> create_1d_mesh st = (Ok mesh, st))
    /\ length mesh = S n
    /\ mesh !! n = Some te
    /\ forall i : nat, (i < n)%nat ->
         mesh !! i =
         Some (f_add (if f_eqb h (f_of_Z 0)
                      then f_mul (f_div (f_of_Z (Z.of_nat i)) (f_of_Z (Z.of_nat n)))
                                 (f_sub te ts)
                      else f_mul (f_of_Z (Z.of_nat i)) h)
                     ts).
Proof.
  intros Hrun.
  destruct (Euler1D_Solve_ok_inv _ _ _ _ _ _ _ Hrun)
    as (g & ts & te & n & x0 & mesh & h & sol & sta & Hacc & Hmesh & Hh & _ & _ & _ & Hself).
  destruct Hacc as (_ & _ & _ & _ & _ & _ & _ & _ & Hn & _).
  assert (Eh : h = f_div (f_sub te ts) (f_of_Z n)).
  { unfold py_truediv, py_float_of_int in Hh.
    destruct (Z.abs n <? float_int_bound); [|discriminate].
    destruct (n =? 0); [discriminate|]. now injection Hh. }
  destruct (np_linspace_samples ts te (Z.to_nat n)) as (mesh' & Em & Lm & Hlast & Hi); [lia|].
  rewrite Z2Nat.id in Em, Hi by lia. rewrite Hmesh in Em. injection Em as <-.
  exists ts, te, h, (Z.to_nat n), mesh. rewrite Hself. simpl.
  rewrite Z2Nat.id by lia.
  repeat (split; [reflexivity || assumption || lia|]).
  split.
  { intros st Hst. rewrite (create_1d_mesh_run st ts te n) by (rewrite Hst; reflexivity).
    now rewrite Hmesh. }
  split; [exact Lm|]. split; [exact Hlast|].
  intros i Hlt. rewrite (Hi i Hlt). unfold linspace_sample. now rewrite <- Eh.
Qed.
End Claims.

(** * Integers below [2^53] as doubles *)

Module Binary64.
Lemma digits2_pos_bounds (p : positive) :
  2 ^ (Z.pos (digits2_pos p) - 1) <= Z.pos p < 2 ^ Z.pos (digits2_pos p).
Proof.
  induction p as [p IH|p IH|]; simpl digits2_pos.
  - rewrite Pos2Z.inj_succ.
    replace (Z.succ (Z.pos (digits2_pos p)) - 1) with (Z.succ (Z.pos (digits2_pos p) - 1)) by lia.
    rewrite !Z.pow_succ_r by lia. lia.
  - rewrite Pos2Z.inj_succ.
    replace (Z.succ (Z.pos (digits2_pos p)) - 1) with (Z.succ (Z.pos (digits2_pos p) - 1)) by lia.
    rewrite !Z.pow_succ_r by lia. lia.
  - simpl. lia.
Qed.

Lemma iter_xO_digits (p k : positive) :
  digits2_pos (Pos.iter xO p k) = (digits2_pos p + k)%positive.
Proof.
  induction k as [|k IH] using Pos.peano_ind.
  - simpl. now rewrite Pos.add_1_r.
  - rewrite Pos.iter_succ. simpl. rewrite IH. lia.
Qed.

Lemma iter_xO_value (p k : positive) :
  Z.pos (Pos.iter xO p k) = Z.pos p * 2 ^ Z.pos k.
Proof.
  induction k as [|k IH] using Pos.peano_ind.
  - simpl. lia.
  - rewrite Pos.iter_succ, Pos2Z.inj_succ, Z.pow_succ_r by lia.
    rewrite Pos2Z.inj_xO, IH. lia.
Qed.

Lemma round_53 (s : bool) (m : positive) (e : Z) :
  digits2_pos m = 53%positive -> -1074 <= e <= 971 ->
  binary_round_aux prec emax s (Z.pos m) e loc_Exact = S754_finite s m e.
Proof.
  intros Hd He.
  assert (Hs : shr_fexp prec emax (Z.pos m) e loc_Exact
               = ({| shr_m := Z.pos m; shr_r := false; shr_s := false |}, e)).
  { unfold shr_fexp, Zdigits2, fexp, SpecFloat.emin, prec, emax. rewrite Hd.
    replace (Z.max (53 + e - 53) (3 - 1024 - 53) - e) with 0 by lia.
    reflexivity. }
  unfold binary_round_aux. rewrite Hs. simpl. rewrite Hs. simpl.
  replace (e <=? emax - prec) with true; [reflexivity|].
  symmetry. apply Z.leb_le. unfold emax, prec. lia.
Qed.

Lemma b64_normalize_pos (s : bool) (p : positive) :
  Z.pos p < 2 ^ 53 ->
  binary_round prec emax s p 0
  = S754_finite s (exact_mantissa p) (Z.pos (digits2_pos p) - 53).
Proof.
  intros Hp.
  pose proof (digits2_pos_bounds p) as [Hlo _].
  assert (Hd : Z.pos (digits2_pos p) <= 53).
  { destruct (Z.le_gt_cases (Z.pos (digits2_pos p)) 53) as [|Hgt]; [assumption|].
    assert (2 ^ 53 <= 2 ^ (Z.pos (digits2_pos p) - 1)) by (apply Z.pow_le_mono_r; lia).
    lia. }
  unfold binary_round, shl_align, exact_mantissa, fexp, SpecFloat.emin.
  unfold prec, emax.
  replace (Z.max (Z.pos (digits2_pos p) + 0 - 53) (3 - 1024 - 53))
    with (Z.pos (digits2_pos p) - 53) by lia.
  replace (Z.pos (digits2_pos p) - 53 - 0) with (Z.pos (digits2_pos p) - 53) by lia.
  destruct (Z.pos (digits2_pos p) - 53) as [|k|k] eqn:E; try lia.
  - change (binary_round_aux 53 1024) with (binary_round_aux prec emax).
    apply round_53; [|lia]. lia.
  - change (binary_round_aux 53 1024) with (binary_round_aux prec emax).
    apply round_53; [|lia]. rewrite iter_xO_digits. lia.
Qed.

Lemma b64_normalize_exact (n : Z) :
  Z.abs n < 2 ^ 53 -> binary_normalize prec emax n 0 false = exact_sf n.
Proof.
  destruct n as [|p|p]; simpl Z.abs; intros Hn; simpl; [reflexivity| |];
    now apply b64_normalize_pos.
Qed.

Lemma exact_mantissa_digits (p : positive) :
  Z.pos p < 2 ^ 53 -> digits2_pos (exact_mantissa p) = 53%positive.
Proof.
  intros Hp. pose proof (digits2_pos_bounds p) as [Hlo _].
  assert (Hd : Z.pos (digits2_pos p) <= 53).
  { destruct (Z.le_gt_cases (Z.pos (digits2_pos p)) 53) as [|Hgt]; [assumption|].
    assert (2 ^ 53 <= 2 ^ (Z.pos (digits2_pos p) - 1)) by (apply Z.pow_le_mono_r; lia).
    lia. }
  unfold exact_mantissa.
  destruct (Z.pos (digits2_pos p) - 53) as [|k|k] eqn:E; try lia.
  rewrite iter_xO_digits. lia.
Qed.

Lemma digits_le_53 (p : positive) :
  Z.pos p < 2 ^ 53 -> Z.pos (digits2_pos p) <= 53.
Proof.
  intros Hp. pose proof (digits2_pos_bounds p) as [Hlo _].
  destruct (Z.le_gt_cases (Z.pos (digits2_pos p)) 53) as [|Hgt]; [assumption|].
  assert (2 ^ 53 <= 2 ^ (Z.pos (digits2_pos p) - 1)) by (apply Z.pow_le_mono_r; lia).
  lia.
Qed.

Lemma exact_bounded (p : positive) :
  Z.pos p < 2 ^ 53 ->
  bounded prec emax (exact_mantissa p) (Z.pos (digits2_pos p) - 53) = true.
Proof.
  intros Hp. pose proof (digits_le_53 p Hp) as Hd.
  unfold bounded, canonical_mantissa, fexp, SpecFloat.emin.
  rewrite exact_mantissa_digits by assumption. unfold prec, emax.
  apply andb_true_intro. split; [apply Z.eqb_eq|apply Z.leb_le]; lia.
Qed.

Lemma exact_sf_valid (n : Z) :
  Z.abs n < 2 ^ 53 -> valid_binary (exact_sf n) = true.
Proof.
  destruct n as [|p|p]; intros Hn; [reflexivity| |]; now apply exact_bounded.
Qed.

Lemma Prim2SF_b64_of_Z (n : Z) :
  Z.abs n < 2 ^ 53 -> Prim2SF (b64_of_Z n) = exact_sf n.
Proof.
  intros Hn. unfold b64_of_Z. rewrite b64_normalize_exact by assumption.
  apply Prim2SF_SF2Prim. now apply exact_sf_valid.
Qed.

Lemma exact_mantissa_value (p : positive) :
  Z.pos p < 2 ^ 53 ->
  Z.pos (exact_mantissa p) = Z.pos p * 2 ^ (53 - Z.pos (digits2_pos p)).
Proof.
  intros Hp. pose proof (digits_le_53 p Hp) as Hd. unfold exact_mantissa.
  destruct (Z.pos (digits2_pos p) - 53) as [|k|k] eqn:E; try lia.
  - replace (53 - Z.pos (digits2_pos p)) with 0 by lia. lia.
  - rewrite iter_xO_value. f_equal. f_equal. lia.
Qed.

Lemma exact_compare_pos (p q : positive) :
  Z.pos p < 2 ^ 53 -> Z.pos q < 2 ^ 53 ->
  match Z.pos (digits2_pos p) - 53 ?= Z.pos (digits2_pos q) - 53 with
  | Lt => Lt
  | Gt => Gt
  | Eq => Pos.compare_cont Eq (exact_mantissa p) (exact_mantissa q)
  end = (Z.pos p ?= Z.pos q).
Proof.
  intros Hp Hq.
  pose proof (digits2_pos_bounds p) as [Lp Up].
  pose proof (digits2_pos_bounds q) as [Lq Uq].
  destruct (Z.compare_spec (Z.pos (digits2_pos p) - 53) (Z.pos (digits2_pos q) - 53))
    as [E|E|E].
  - change (Pos.compare_cont Eq (exact_mantissa p) (exact_mantissa q))
      with (Z.pos (exact_mantissa p) ?= Z.pos (exact_mantissa q)).
    rewrite !exact_mantissa_value by assumption.
    replace (Z.pos (digits2_pos q)) with (Z.pos (digits2_pos p)) by lia.
    symmetry. apply Zmult_compare_compat_r. apply Z.lt_gt.
    apply Z.pow_pos_nonneg; [lia|]. pose proof (digits_le_53 p Hp). lia.
  - symmetry. apply Z.compare_lt_iff.
    assert (2 ^ Z.pos (digits2_pos p) <= 2 ^ (Z.pos (digits2_pos q) - 1))
      by (apply Z.pow_le_mono_r; lia).
    lia.
  - symmetry. apply Z.compare_gt_iff.
    assert (2 ^ Z.pos (digits2_pos q) <= 2 ^ (Z.pos (digits2_pos p) - 1))
      by (apply Z.pow_le_mono_r; lia).
    lia.
Qed.

Lemma exact_sf_compare (m n : Z) :
  Z.abs m < 2 ^ 53 -> Z.abs n < 2 ^ 53 ->
  SFcompare (exact_sf m) (exact_sf n) = Some (m ?= n).
Proof.
  destruct m as [|p|p], n as [|q|q]; simpl Z.abs; intros Hm Hn; try reflexivity.
  - unfold exact_sf, SFcompare. now rewrite exact_compare_pos.
  - unfold exact_sf, SFcompare. f_equal.
    pose proof (exact_compare_pos p q Hm Hn) as H.
    change (Z.neg p ?= Z.neg q) with (CompOpp (Z.pos p ?= Z.pos q)).
    rewrite <- H. now destruct (_ ?= _).
Qed.

(** Doubles of integers below [2^53] in absolute value compare as the
    integers do. *)
Lemma b64_of_Z_leb (m n : Z) :
  Z.abs m < 2 ^ 53 -> Z.abs n < 2 ^ 53 ->
  PrimFloat.leb (b64_of_Z m) (b64_of_Z n) = (m <=? n).
Proof.
  intros Hm Hn. rewrite leb_spec, !Prim2SF_b64_of_Z by assumption.
  unfold SFleb. rewrite exact_sf_compare by assumption.
  unfold Z.leb. now destruct (m ?= n).
Qed.

(** The double of such an integer equals it, as Python's [==] between a
    [float] and an [int] has it. *)
Lemma b64_of_Z_exact (n : Z) :
  Z.abs n < 2 ^ 53 -> b64_cmp_Z (b64_of_Z n) n = Some Eq.
Proof.
  intros Hn. unfold b64_cmp_Z. rewrite Prim2SF_b64_of_Z by assumption.
  destruct n as [|p|p]; simpl Z.abs in Hn; unfold exact_sf; [reflexivity| |];
    pose proof (digits_le_53 p Hn) as Hd;
    pose proof (exact_mantissa_value p Hn) as Hv; f_equal.
  - destruct (Z.leb_spec 0 (Z.pos (digits2_pos p) - 53)) as [H0|H0];
      apply Z.compare_eq_iff; rewrite Hv.
    + replace (53 - Z.pos (digits2_pos p)) with 0 by lia.
      replace (Z.pos (digits2_pos p) - 53) with 0 by lia. lia.
    + f_equal. f_equal. lia.
  - destruct (Z.leb_spec 0 (Z.pos (digits2_pos p) - 53)) as [H0|H0];
      apply Z.compare_eq_iff; rewrite <- !Pos2Z.opp_pos, Hv.
    + replace (53 - Z.pos (digits2_pos p)) with 0 by lia.
      replace (Z.pos (digits2_pos p) - 53) with 0 by lia. lia.
    + replace (- (Z.pos (digits2_pos p) - 53)) with (53 - Z.pos (digits2_pos p)) by lia.
      lia.
Qed.

(** [float_int_bound] is where [float()] of an integer starts to overflow. *)
Example float_int_bound_is_tight :
  b64_of_Z (float_int_bound - 1) = 0x1.fffffffffffffp+1023%float
  /\ b64_of_Z float_int_bound = infinity.
Proof. split; vm_compute; reflexivity. Qed.

Lemma py_float_of_int_small (n : Z) :
  Z.abs n < 2 ^ 53 -> py_float_of_int n = Ok (b64_of_Z n).
Proof.
  intros Hn. unfold py_float_of_int.
  destruct (Z.ltb_spec (Z.abs n) float_int_bound) as [_|H]; [reflexivity|].
  assert (2 ^ 53 < float_int_bound) by reflexivity. lia.
Qed.

(** ** Zero steps away from a finite start *)

Lemma SFdiv_finite_inv (x y : spec_float) :
  finite_sf (SF64div x y) = true ->
  finite_sf x = true /\ is_zero_sf (SF64div (S754_zero false) y) = true.
Proof.
  destruct x as [sx|sx| |sx mx ex], y as [sy|sy| |sy my ey];
    try (intros _; split; reflexivity); try discriminate.
Qed.

Lemma SFsub_finite_inv (x y : spec_float) :
  finite_sf (SF64sub x y) = true -> finite_sf y = true.
Proof.
  destruct x as [sx|sx| |sx mx ex], y as [sy|sy| |sy my ey];
    try (intros _; reflexivity); try discriminate.
  destruct sx, sy; discriminate.
Qed.

Lemma SFmul_zero_finite (x y : spec_float) :
  is_zero_sf x = true -> finite_sf y = true -> is_zero_sf (SF64mul x y) = true.
Proof.
  destruct x as [sx|sx| |sx mx ex], y as [sy|sy| |sy my ey];
    try discriminate; reflexivity.
Qed.

Lemma SFeqb_refl (x : spec_float) : finite_sf x = true -> SFeqb x x = true.
Proof.
  destruct x as [s|s| |s m e]; try discriminate; intros _; [reflexivity|].
  unfold SFeqb, SFcompare. rewrite Z.compare_refl.
  change (Pos.compare_cont Eq m m) with (Pos.compare m m).
  rewrite Pos.compare_refl. now destruct s.
Qed.

Lemma SFadd_zero_eqb (z x : spec_float) :
  is_zero_sf z = true -> finite_sf x = true -> SFeqb (SF64add z x) x = true.
Proof.
  destruct z as [sz|sz| |sz mz ez]; try discriminate. intros _.
  destruct x as [s|s| |s m e]; try discriminate; intros _.
  - now destruct sz, s.
  - apply (SFeqb_refl (S754_finite s m e)). reflexivity.
Qed.

(** The first sample of [np.linspace]: zero steps away from [start]. *)
Lemma first_sample_is_start (t0 t1 d : float) :
  let delta := (t1 - t0)%float in
  let step := (delta / d)%float in
  b64_finite step = true ->
  ((if (step =? 0)%float then (0 / d) * delta else 0 * step) + t0 =? t0)%float = true.
Proof.
  intros delta step Hfin. unfold b64_finite in Hfin.
  pose proof Hfin as Hstep. unfold step in Hfin. rewrite div_spec in Hfin.
  apply SFdiv_finite_inv in Hfin as [Hdelta Hq].
  pose proof Hdelta as Hd'. unfold delta in Hdelta. rewrite sub_spec in Hdelta.
  apply SFsub_finite_inv in Hdelta.
  rewrite FloatAxioms.eqb_spec, add_spec. apply SFadd_zero_eqb; [|exact Hdelta].
  change (Prim2SF 0) with (S754_zero false) in *.
  destruct (step =? 0)%float.
  - rewrite mul_spec. apply SFmul_zero_finite; [|exact Hd'].
    now rewrite div_spec.
  - rewrite mul_spec. now apply SFmul_zero_finite.
Qed.

(** ** Rounding keeps the sign *)

Lemma shr_1_nonneg (mrs : shr_record) : 0 <= shr_m mrs -> 0 <= shr_m (shr_1 mrs).
Proof. destruct mrs as [[|[p|p|]|p] r s]; simpl; lia. Qed.

Lemma iter_shr_1_nonneg (p : positive) : forall mrs : shr_record,
  0 <= shr_m mrs -> 0 <= shr_m (SpecFloat.iter_pos shr_1 p mrs).
Proof.
  induction p as [p IH|p IH|]; intros mrs H; simpl.
  - apply IH, IH. now apply shr_1_nonneg.
  - now apply IH, IH.
  - now apply shr_1_nonneg.
Qed.

Lemma shr_fexp_nonneg (m e : Z) (l : location) :
  0 <= m -> 0 <= shr_m (fst (shr_fexp prec emax m e l)).
Proof.
  intros H. unfold shr_fexp, shr.
  assert (H0 : 0 <= shr_m (shr_record_of_loc m l)) by (destruct l as [|[]]; exact H).
  destruct (_ - e) as [|p|p]; simpl; auto using iter_shr_1_nonneg.
Qed.

Lemma round_nearest_even_nonneg (m : Z) (l : location) :
  0 <= m -> 0 <= round_nearest_even m l.
Proof.
  intros H. unfold round_nearest_even.
  destruct l as [|[]]; try destruct (Z.even m); lia.
Qed.

Lemma binary_round_aux_sign (sx : bool) (mx ex : Z) (lx : location) :
  0 <= mx -> has_sign sx (binary_round_aux prec emax sx mx ex lx) = true.
Proof.
  intros H. unfold binary_round_aux.
  pose proof (shr_fexp_nonneg mx ex lx H) as H1.
  destruct (shr_fexp prec emax mx ex lx) as [mrs1 e1]. simpl in H1.
  pose proof (shr_fexp_nonneg _ e1 loc_Exact
                (round_nearest_even_nonneg _ (loc_of_shr_record mrs1) H1)) as H2.
  destruct (shr_fexp prec emax _ e1 loc_Exact) as [mrs2 e2]. simpl in H2.
  destruct (shr_m mrs2) as [|m|m]; [|destruct (e2 <=? _)|lia];
    simpl; now destruct sx.
Qed.

Lemma binary_normalize_sign (m e : Z) :
  0 < m -> has_sign false (binary_normalize prec emax m e false) = true.
Proof.
  destruct m as [|p|p]; try lia. intros _. unfold binary_normalize, binary_round.
  destruct (shl_align p e _) as [mz ez]. now apply binary_round_aux_sign.
Qed.

(** ** A positive divisor keeps the sign of the dividend *)

Lemma SFdiv_sign (x : spec_float) (my : positive) (ey : Z) :
  has_sign false x = true ->
  has_sign false (SF64div x (S754_finite false my ey)) = true.
Proof.
  destruct x as [s|s| |s mx ex]; try discriminate; simpl;
    destruct s; try discriminate; intros _; try reflexivity.
  unfold SF64div, SFdiv.
  destruct (SFdiv_core_binary prec emax (Z.pos mx) ex (Z.pos my) ey)
    as [[mz ez] lz] eqn:E.
  apply binary_round_aux_sign.
  unfold SFdiv_core_binary in E.
  match type of E with context [Z.div_eucl ?a ?b] =>
    assert (Ha : 0 <= a); [|pose proof (Z.div_pos a b Ha ltac:(lia)) as Hq;
      unfold Z.div in Hq; destruct (Z.div_eucl a b) as [q r]] end.
  { destruct (_ - _ - _) as [|s|s]; try lia. apply Z.shiftl_nonneg. lia. }
  injection E as <- _ _. exact Hq.
Qed.

(** ** The difference of two ordered doubles *)

Lemma canonical_exponents (m1 m2 : positive) (e1 e2 : Z) :
  bounded prec emax m1 e1 = true -> bounded prec emax m2 e2 = true ->
  e1 < e2 -> Z.pos m1 < Z.pos m2 * 2 ^ (e2 - e1).
Proof.
  unfold bounded, canonical_mantissa, fexp, emin.
  intros [H1 _]%andb_true_iff [H2 _]%andb_true_iff He.
  apply Z.eqb_eq in H1, H2.
  pose proof (digits2_pos_bounds m1) as [_ U1].
  pose proof (digits2_pos_bounds m2) as [L2 _].
  assert (D1 : Z.pos (digits2_pos m1) <= prec) by lia.
  assert (D2 : Z.pos (digits2_pos m2) = prec) by lia.
  rewrite D2 in L2.
  assert (2 ^ Z.pos (digits2_pos m1) <= 2 ^ prec) by (apply Z.pow_le_mono_r; lia).
  assert (2 ^ 1 <= 2 ^ (e2 - e1)) by (apply Z.pow_le_mono_r; lia).
  change (2 ^ prec) with (2 * 2 ^ (prec - 1)) in *. change (2 ^ 1) with 2 in *.
  nia.
Qed.

Lemma shl_align_same (m : positive) (e : Z) : fst (shl_align m e e) = m.
Proof. unfold shl_align. now rewrite Z.sub_diag. Qed.

Lemma shl_align_lower (m : positive) (e e' : Z) :
  e' < e -> Z.pos (fst (shl_align m e e')) = Z.pos m * 2 ^ (e - e').
Proof.
  intros He. unfold shl_align.
  destruct (e' - e) as [|d|d] eqn:E; try lia.
  simpl. rewrite iter_xO_value. f_equal. f_equal. lia.
Qed.

Lemma aligned_compare (m1 m2 : positive) (e1 e2 : Z) :
  bounded prec emax m1 e1 = true -> bounded prec emax m2 e2 = true ->
  match e1 ?= e2 with
  | Eq => Pos.compare_cont Eq m1 m2
  | Lt => Lt
  | Gt => Gt
  end = Lt ->
  Z.pos (fst (shl_align m1 e1 (Z.min e2 e1))) < Z.pos (fst (shl_align m2 e2 (Z.min e2 e1))).
Proof.
  intros B1 B2. destruct (Z.compare_spec e1 e2) as [->|He|He]; try discriminate.
  - intros Hm. rewrite Z.min_id, !shl_align_same.
    change (Pos.compare_cont Eq m1 m2) with (Z.pos m1 ?= Z.pos m2) in Hm.
    now apply Z.compare_lt_iff.
  - intros _. rewrite Z.min_r by lia. rewrite shl_align_same, shl_align_lower by lia.
    now apply canonical_exponents.
Qed.

Lemma SFltb_Lt (x y : spec_float) : SFltb x y = true -> SFcompare x y = Some Lt.
Proof. unfold SFltb. now destruct (SFcompare x y) as [[]|]. Qed.

Lemma SFsub_sign (x y : spec_float) :
  valid_binary x = true -> valid_binary y = true ->
  SFltb x y = true -> has_sign false (SF64sub y x) = true.
Proof.
  intros Bx By Hlt%SFltb_Lt.
  destruct x as [sx|sx| |sx mx ex], y as [sy|sy| |sy my ey]; simpl in *;
    try discriminate; try (destruct sx); try (destruct sy);
    try discriminate; try reflexivity; try injection Hlt as Hlt.
  - (* both negative *)
    apply binary_normalize_sign.
    pose proof (aligned_compare my mx ey ex By Bx) as H.
    rewrite Z.min_comm in H.
    destruct (Z.compare_spec ex ey) as [->|He|He]; try discriminate.
    + rewrite Z.compare_refl in H.
      change (Pos.compare_cont Eq mx my) with (Pos.compare mx my) in Hlt.
      change (Pos.compare_cont Eq my mx) with (Pos.compare my mx) in H.
      rewrite (Pos.compare_antisym mx my) in H.
      specialize (H Hlt). simpl cond_Zopp. lia.
    + destruct (Z.compare_spec ey ex); try lia. specialize (H eq_refl).
      simpl cond_Zopp. lia.
  - (* x negative, y positive *)
    apply binary_normalize_sign. simpl cond_Zopp. lia.
  - (* both positive *)
    apply binary_normalize_sign.
    pose proof (aligned_compare mx my ex ey Bx By) as H.
    destruct (ex ?= ey); try discriminate; specialize (H Hlt);
      simpl cond_Zopp; lia.
Qed.

Lemma has_sign_leb (x : spec_float) :
  has_sign false x = true -> SFleb (S754_zero false) x = true.
Proof. destruct x as [s|s| |s m e]; try discriminate; now destruct s. Qed.

(** ** [==] and [<] *)

Lemma SFcompare_eqb_left (a b c : spec_float) :
  SFeqb a b = true -> SFcompare a c = SFcompare b c.
Proof.
  unfold SFeqb.
  destruct a as [sa|sa| |sa ma ea], b as [sb|sb| |sb mb eb]; simpl;
    try discriminate; try (destruct sa); try (destruct sb); try discriminate;
    try reflexivity; intros H; try (now destruct c).
  - destruct (Z.compare_spec ea eb) as [->|?|?]; try discriminate.
    change (Pos.compare_cont Eq ma mb) with (Pos.compare ma mb) in H.
    destruct (Pos.compare_spec ma mb) as [->|?|?]; try discriminate. reflexivity.
  - destruct (Z.compare_spec ea eb) as [->|?|?]; try discriminate.
    change (Pos.compare_cont Eq ma mb) with (Pos.compare ma mb) in H.
    destruct (Pos.compare_spec ma mb) as [->|?|?]; try discriminate. reflexivity.
Qed.

(** ** The step between ordered bounds *)

(** [(t1 - t0) / n] is not negative and not a NaN when [t0 < t1], for a
    step count below [2^53]: the difference of ordered doubles rounds to a
    positive double or to [+inf], and dividing by a positive integer keeps
    that sign.  It can be zero, by underflow. *)
Lemma step_not_negative (t0 t1 : float) (n : Z) :
  PrimFloat.ltb t0 t1 = true -> 0 < n < 2 ^ 53 ->
  PrimFloat.leb (b64_of_Z 0) (PrimFloat.div (PrimFloat.sub t1 t0) (b64_of_Z n)) = true.
Proof.
  intros Hlt Hn. rewrite ltb_spec in Hlt.
  rewrite leb_spec, div_spec, sub_spec, !Prim2SF_b64_of_Z by lia.
  apply has_sign_leb. destruct n as [|p|p]; try lia.
  apply SFdiv_sign, SFsub_sign; auto using Prim2SF_valid.
Qed.

(** A mesh point that is [==] to [t0] is below whatever [t0] is below. *)
Lemma eqb_ltb_trans (a t0 t1 : float) :
  PrimFloat.eqb a t0 = true -> PrimFloat.ltb t0 t1 = true ->
  PrimFloat.ltb a t1 = true.
Proof.
  rewrite FloatAxioms.eqb_spec, !ltb_spec. intros Heq Hlt.
  unfold SFltb in *. now rewrite (SFcompare_eqb_left _ _ _ Heq).
Qed.
End Binary64.

(** * The solver on binary64: what the tests run, and where the
      arithmetic shows *)

Module OnBinary64.
Import Run.
Open Scope float_scope.

(** [test_solve_method]: [dy/dt = y] on [0, 1] in two steps. *)
Example manual_euler_steps :
  exists st1,
    construct simple_f (PyFloat 0) (PyFloat 1) (PyFloat 1) (PyInt 2) = (Ok tt, st1)
    /\ o_h (self st1) = Some 0.5
    /\ o_mesh (self st1) = Some [0; 0.5; 1]
    /\ o_solution (self st1) = Some [1; 1.5; 2.25]
    /\ calls st1 = [(0, 1); (0.5, 1.5)].
Proof. eexists. split; [reflexivity|]. repeat split. Qed.

(** C2.  [Euler1D_Solve(f, False, True, 1.0, 2)] is accepted: the booleans
    pass [isinstance(_, (int, float))] and are stored as [0.0] and [1.0]. *)
Theorem boolean_bounds_are_accepted :
  exists st1,
    construct simple_f (PyBool false) (PyBool true) (PyFloat 1) (PyInt 2) = (Ok tt, st1)
    /\ o_t_start (self st1) = Some 0
    /\ o_t_end (self st1) = Some 1
    /\ o_mesh (self st1) = Some [0; 0.5; 1].
Proof. eexists. split; [reflexivity|]. repeat split. Qed.

(** C3.  [Euler1D_Solve(f, 0.0, 5.0, 1.0, True)] is accepted: [True] is an
    [int] instance and [True <= 0] is false, so the solver takes one step. *)
Theorem true_step_count_is_accepted :
  exists st1,
    construct simple_f (PyFloat 0) (PyFloat 5) (PyFloat 1) (PyBool true) = (Ok tt, st1)
    /\ o_num_steps (self st1) = Some 1%Z
    /\ o_mesh (self st1) = Some [0; 5]
    /\ o_solution (self st1) = Some [1; 6].
Proof. eexists. split; [reflexivity|]. repeat split. Qed.

(** C4, amended.  On every constructed solver [create_1d_mesh()] returns
    the stored mesh: [num_steps + 1] floats, the last of them [t_end]
    itself, and the one at each index [i < num_steps] the double
    [i * h + t_start], each operation rounded, where [h] is the stored step
    [(t_end - t_start) / num_steps]; when that [h] has rounded to zero the
    sample is [(i / num_steps) * (t_end - t_start) + t_start] instead.
    Element 0 is [== t_start] whenever [h] is finite.  Nothing is said of
    the distance between neighbours. *)
Theorem create_1d_mesh_floats
    (W : Type) (f t_start t_end y_0 num_steps : PyVal float W) (st0 st1 : St float W) :
  Euler1D_Solve f t_start t_end y_0 num_steps st0 = (Ok tt, st1) ->
  exists (ts te h : float) (n : nat) (mesh : list float),
    o_t_start (self st1) = Some ts /\ o_t_end (self st1) = Some te
    /\ o_num_steps (self st1) = Some (Z.of_nat n) /\ (1 <= n)%nat
    /\ o_h (self st1) = Some h /\ h = (te - ts) / b64_of_Z (Z.of_nat n)
    /\ o_mesh (self st1) = Some mesh
    /\ (forall st, self st = self st1 -> create_1d_mesh st = (Ok mesh, st))
    /\ length mesh = S n
    /\ mesh !! n = Some te
    /\ (forall i : nat, (i < n)%nat ->
          mesh !! i =
          Some ((if h =? 0
                 then (b64_of_Z (Z.of_nat i) / b64_of_Z (Z.of_nat n)) * (te - ts)
                 else b64_of_Z (Z.of_nat i) * h)
                + ts))
    /\ (b64_finite h = true ->
        exists a, mesh !! 0%nat = Some a /\ (a =? ts) = true).
Proof.
  intros Hrun.
  destruct (create_1d_mesh_samples _ _ _ _ _ _ _ Hrun)
    as (ts & te & h & n & mesh & Ets & Ete & En & Hn & Eh & Hh & Em & Hcall & Lm & Hlast & Hi).
  exists ts, te, h, n, mesh.
  do 10 (split; [assumption|]). split; [exact Hi|].
  intros Hfin. eexists. split; [apply (Hi 0%nat); lia|].
  subst h. apply (Binary64.first_sample_is_start ts te _ Hfin).
Qed.

(** C4 as stated fails on binary64.  On [-2^1023, 2^1023] in two steps
    the difference of the bounds overflows and [mesh[0]] is a NaN: it is not
    [t_start].  On [0, 12 * 2^-1074] in eight steps, [h] is positive and
    finite, yet [mesh[7]] lies beyond [t_end = mesh[8]]: the last two
    elements are in the wrong order, at a distance that is negative where
    [h] is positive. *)
Lemma create_1d_mesh_not_uniform :
  (exists st1 mesh a,
     construct simple_f (PyFloat (-0x1p1023)) (PyFloat 0x1p1023) (PyFloat 1) (PyInt 2)
     = (Ok tt, st1)
     /\ create_1d_mesh st1 = (Ok mesh, st1)
     /\ mesh !! 0%nat = Some a
     /\ (a =? -0x1p1023) = false)
  /\ (exists st1 mesh h a b,
        construct simple_f (PyFloat 0) (PyFloat 0x1.8p-1071) (PyFloat 1) (PyInt 8)
        = (Ok tt, st1)
        /\ create_1d_mesh st1 = (Ok mesh, st1) /\ calc_step_size st1 = (Ok h, st1)
        /\ b64_finite h = true /\ (0 <? h) = true
        /\ mesh !! 7%nat = Some a /\ mesh !! 8%nat = Some b
        /\ b = 0x1.8p-1071 /\ (b <? a) = true /\ (b - a <? 0) = true).
Proof.
  split.
  - eexists _, _, _. split; [reflexivity|]. split; [reflexivity|].
    split; reflexivity.
  - eexists _, _, _, _, _. split; [reflexivity|]. split; [reflexivity|].
    split; [reflexivity|]. repeat split.
Qed.

(** C10 as stated fails on binary64.  Between [1.0] and the next float,
    in two steps, the middle mesh point rounds back to [1.0]; between [0.0]
    and the smallest positive float, in two steps, [h] rounds to zero.
    Both problems pass validation with [t_start < t_end]. *)
Lemma mesh_not_strictly_increasing :
  (exists st1 mesh,
     construct simple_f (PyFloat 1) (PyFloat 0x1.0000000000001p0) (PyFloat 1) (PyInt 2)
     = (Ok tt, st1)
     /\ f_ltb 1 0x1.0000000000001p0 = true
     /\ o_mesh (self st1) = Some mesh
     /\ ~ strictly_increasing mesh)
  /\ (exists st1 h,
        construct simple_f (PyFloat 0) (PyFloat 0x1p-1074) (PyFloat 1) (PyInt 2)
        = (Ok tt, st1)
        /\ f_ltb 0 0x1p-1074 = true
        /\ o_h (self st1) = Some h
        /\ f_ltb (f_of_Z 0) h = false).
Proof.
  split.
  - eexists _, _. split; [reflexivity|]. split; [reflexivity|]. split; [reflexivity|].
    intros Hinc. specialize (Hinc 0%nat _ _ eq_refl eq_refl).
    vm_compute in Hinc. discriminate.
  - eexists _, _. split; [reflexivity|]. split; [reflexivity|]. split; reflexivity.
Qed.

(** C10, amended.  On every constructed solver whose stored bounds are
    ordered, [t_start < t_end], and whose step count is below [2^53], the
    stored step [h] is not negative and not a NaN: [0 <= h].  When [h] is
    moreover finite, the mesh starts strictly below where it ends:
    [mesh[0] == t_start], [mesh[num_steps]] is [t_end], and
    [mesh[0] < mesh[num_steps]].  Neither [0 < h] nor the order of
    neighbouring mesh points is part of the statement. *)
Theorem ordered_bounds_give_a_step_that_is_not_negative
    (W : Type) (f t_start t_end y_0 num_steps : PyVal float W) (st0 st1 : St float W) :
  Euler1D_Solve f t_start t_end y_0 num_steps st0 = (Ok tt, st1) ->
  exists (ts te h : float) (n : nat) (mesh : list float),
    o_t_start (self st1) = Some ts /\ o_t_end (self st1) = Some te
    /\ o_num_steps (self st1) = Some (Z.of_nat n) /\ (1 <= n)%nat
    /\ o_h (self st1) = Some h /\ o_mesh (self st1) = Some mesh
    /\ ((ts <? te) = true -> (Z.of_nat n < 2 ^ 53)%Z ->
        (b64_of_Z 0 <=? h) = true
        /\ (b64_finite h = true ->
            exists a b, mesh !! 0%nat = Some a /\ mesh !! n = Some b
                        /\ (a =? ts) = true /\ b = te /\ (a <? b) = true)).
Proof.
  intros Hrun.
  destruct (create_1d_mesh_samples _ _ _ _ _ _ _ Hrun)
    as (ts & te & h & n & mesh & Ets & Ete & En & Hn & Eh & Hh & Em & _ & _ & Hlast & Hi).
  exists ts, te, h, n, mesh. do 6 (split; [assumption|]).
  intros Hlt Hbound. subst h. split.
  - apply Binary64.step_not_negative; [exact Hlt|lia].
  - intros Hfin. eexists _, te. split; [apply (Hi 0%nat); lia|].
    split; [exact Hlast|].
    pose proof (Binary64.first_sample_is_start ts te _ Hfin) as H0.
    split; [exact H0|]. split; [reflexivity|].
    exact (Binary64.eqb_ltb_trans _ _ _ H0 Hlt).
Qed.

(** On binary64, integers below [2^53] in absolute value can stand for
    the floats equal to them, with no further condition: [float(n)] holds
    [n] exactly, so the bounds compare alike, and construction from the
    integers is construction from those floats. *)
Theorem small_integer_arguments_are_their_floats
    (W : Type) (f num_steps : PyVal float W) (a b c : Z) (st : St float W) :
  (Z.abs a < 2 ^ 53)%Z -> (Z.abs b < 2 ^ 53)%Z -> (Z.abs c < 2 ^ 53)%Z ->
  f_cmp_Z (b64_of_Z a) a = Some Eq
  /\ f_cmp_Z (b64_of_Z b) b = Some Eq
  /\ f_cmp_Z (b64_of_Z c) c = Some Eq
  /\ Euler1D_Solve f (PyInt a) (PyInt b) (PyInt c) num_steps st
     = Euler1D_Solve f (PyFloat (b64_of_Z a)) (PyFloat (b64_of_Z b))
         (PyFloat (b64_of_Z c)) num_steps st.
Proof.
  intros Ha Hb Hc.
  repeat (split; [now apply Binary64.b64_of_Z_exact|]).
  apply Euler1D_Solve_int_float; try (now apply Binary64.py_float_of_int_small).
  now apply Binary64.b64_of_Z_leb.
Qed.

Lemma small_integer_arguments_are_their_floats_witness :
  Euler1D_Solve (PyFun (pure_fun simple_f)) (PyInt 0) (PyInt 5) (PyInt 1) (PyInt 10) start
  = Euler1D_Solve (PyFun (pure_fun simple_f)) (PyFloat (b64_of_Z 0)) (PyFloat (b64_of_Z 5))
      (PyFloat (b64_of_Z 1)) (PyInt 10) start.
Proof.
  apply (small_integer_arguments_are_their_floats unit
           (PyFun (pure_fun simple_f)) (PyInt 10) 0 5 1 start); reflexivity.
Defined.

(** On binary64, the mesh of a constructed solver starts at [t_start], as
    [==] has it, whenever the stored step [h] is finite.  (It is finite
    unless a bound is a NaN or an infinity, or [t_end - t_start]
    overflows.) *)
Theorem finite_step_mesh_starts_at_t_start
    (W : Type) (f t_start t_end y_0 num_steps : PyVal float W) (st0 st1 : St float W) :
  Euler1D_Solve f t_start t_end y_0 num_steps st0 = (Ok tt, st1) ->
  exists (ts h a : float) (mesh : list float),
    o_t_start (self st1) = Some ts /\ o_h (self st1) = Some h
    /\ o_mesh (self st1) = Some mesh /\ mesh !! 0%nat = Some a
    /\ (b64_finite h = true -> f_eqb a ts = true).
Proof.
  intros Hrun.
  destruct (Euler1D_Solve_ok_inv _ _ _ _ _ _ _ Hrun)
    as (g & ts & te & n & x0 & mesh & h & sol & sta & Hacc & Hmesh & Hh & _ & _ & _ & Hself).
  destruct Hacc as (_ & _ & _ & _ & _ & _ & _ & _ & Hn & _).
  destruct (np_linspace_samples ts te (Z.to_nat n)) as (mesh' & Em & _ & _ & Hi); [lia|].
  rewrite Z2Nat.id in Em, Hi by lia. rewrite Hmesh in Em. injection Em as <-.
  assert (Eh : h = (te - ts) / b64_of_Z n).
  { unfold py_truediv, py_float_of_int in Hh.
    destruct (Z.abs n <? float_int_bound)%Z; [|discriminate].
    destruct (n =? 0)%Z; [discriminate|]. now injection Hh. }
  exists ts, h, (linspace_sample ts te n 0), mesh. rewrite Hself. simpl.
  do 3 (split; [reflexivity|]).
  split; [apply (Hi 0%nat); lia|].
  intros Hfin. subst h. apply (Binary64.first_sample_is_start ts te (b64_of_Z n) Hfin).
Qed.

Lemma finite_step_mesh_starts_at_t_start_witness :
  exists a mesh,
    o_mesh (self two_steps) = Some mesh /\ mesh !! 0%nat = Some a /\ f_eqb a 0 = true.
Proof.
  destruct (finite_step_mesh_starts_at_t_start unit
              (PyFun (pure_fun simple_f)) (PyFloat 0) (PyFloat 1) (PyFloat 1) (PyInt 2)
              start two_steps eq_refl)
    as (ts & h & a & mesh & Ets & Eh & Em & Ea & H).
  change (o_t_start (self two_steps)) with (Some 0) in Ets. injection Ets as <-.
  change (o_h (self two_steps)) with (Some 0.5) in Eh. injection Eh as <-.
  exists a, mesh. split; [exact Em|]. split; [exact Ea|]. apply H. reflexivity.
Defined.

(** ** The general statements at work on the two-step problem *)

Lemma two_steps_constructed :
  Euler1D_Solve (PyFun (pure_fun simple_f)) (PyFloat 0) (PyFloat 1) (PyFloat 1) (PyInt 2)
    start
  = (Ok tt, two_steps).
Proof. reflexivity. Qed.

Lemma simple_f_computes : computes (pure_fun simple_f) simple_f.
Proof. intros w t y. reflexivity. Qed.

Lemma solve_euler_recurrence_witness :
  exists sol st',
    solve two_steps = (Ok sol, st') /\ length sol = 3%nat /\ sol !! 0%nat = Some 1.
Proof.
  destruct (solve_euler_recurrence (pure_fun simple_f) simple_f _ _ _ _ _ _
              two_steps_constructed simple_f_computes)
    as (n & x0 & h & mesh & En & Fy & _ & _ & _ & H).
  injection Fy as <-.
  change (o_num_steps (self two_steps)) with (Some 2%Z) in En. injection En as En.
  assert (n = 2%nat) as -> by lia.
  destruct (H two_steps eq_refl) as (sol & st' & Erun & Elen & E0 & _).
  exists sol, st'. auto.
Defined.

Lemma calc_step_size_total_witness :
  calc_step_size two_steps = (Ok 0.5, two_steps).
Proof.
  destruct (calc_step_size_total _ _ _ _ _ _ _ two_steps_constructed)
    as (ts & te & n & Ets & Ete & En & _ & _ & H).
  change (o_t_start (self two_steps)) with (Some 0) in Ets.
  change (o_t_end (self two_steps)) with (Some 1) in Ete.
  change (o_num_steps (self two_steps)) with (Some 2%Z) in En.
  injection Ets as <-. injection Ete as <-. injection En as <-.
  rewrite (H two_steps eq_refl). reflexivity.
Defined.

Lemma solve_idempotent_witness :
  exists sol st' st'',
    solve two_steps = (Ok sol, st') /\ solve st' = (Ok sol, st'').
Proof.
  destruct (solve_idempotent (pure_fun simple_f) _ _ _ _ _ _ two_steps_constructed
              (computes_deterministic _ _ simple_f_computes) two_steps eq_refl)
    as (sol & st' & st'' & E1 & E2 & _).
  exists sol, st', st''. auto.
Defined.

(** [test_invalid_t_start_t_end_cases]: [t_start=5.0, t_end=0.0]. *)
Lemma invalid_input_fails_before_computing_witness :
  exists e st',
    construct simple_f (PyFloat 5) (PyFloat 0) (PyFloat 1) (PyInt 10) = (Raise e, st')
    /\ calls st' = [] /\ o_mesh (self st') = None /\ o_solution (self st') = None.
Proof.
  destruct (invalid_input_fails_before_computing
              (PyFun (pure_fun simple_f)) (PyFloat 5) (PyFloat 0) (PyFloat 1) (PyInt 10)
              start)
    as (e & st' & Erun & _ & Ec & _ & Em & _ & Es); [left; reflexivity|].
  exists e, st'. auto.
Defined.

(** [test_invalid_y_0_cases]: [y_0="1.0"]. *)
Lemma y_0_must_be_a_real_number_witness :
  fst (construct simple_f (PyFloat 0) (PyFloat 5) (PyStr "1.0") (PyInt 10))
  = Raise NotANumber_y_0.
Proof.
  destruct (y_0_must_be_a_real_number
              (PyFun (pure_fun simple_f)) (PyFloat 0) (PyFloat 5) (PyStr "1.0") (PyInt 10)
              start (pure_fun simple_f) 0 5 10%Z) as [[_ Hrejected] _];
    [reflexivity..|].
  apply Hrejected. left. reflexivity.
Defined.

Lemma integer_arguments_behave_as_floats_witness :
  Euler1D_Solve (PyFun (pure_fun simple_f)) (PyInt 0) (PyInt 5) (PyInt 1) (PyInt 10) start
  = Euler1D_Solve (PyFun (pure_fun simple_f)) (PyFloat 0) (PyFloat 5) (PyFloat 1)
      (PyInt 10) start.
Proof.
  destruct (integer_arguments_behave_as_floats
              (PyFun (pure_fun simple_f)) (PyInt 10) 0 5 1 0 5 1 start) as [Hsame _];
    [reflexivity..|].
  exact Hsame.
Defined.

(** [test_invalid_t_start_t_end_cases]: [t_start="0.0"]. *)
Lemma bounds_must_be_int_or_float_witness :
  fst (construct simple_f (PyStr "0.0") (PyFloat 5) (PyFloat 1) (PyInt 10))
  = Raise NotANumber_bounds.
Proof.
  destruct (bounds_must_be_int_or_float
              (PyFun (pure_fun simple_f)) (PyStr "0.0") (PyFloat 5) (PyFloat 1) (PyInt 10)
              start (pure_fun simple_f) eq_refl) as [_ Hrejected].
  apply Hrejected. left. reflexivity.
Defined.

(** [test_invalid_t_start_t_end_cases]: [t_start=5.0, t_end=0.0]. *)
Lemma t_start_must_be_less_than_t_end_witness :
  fst (construct simple_f (PyFloat 5) (PyFloat 0) (PyFloat 1) (PyInt 10))
  = Raise RangeViolation.
Proof.
  destruct (t_start_must_be_less_than_t_end
              (PyFun (pure_fun simple_f)) (PyFloat 5) (PyFloat 0) (PyFloat 1) (PyInt 10)
              start (pure_fun simple_f) eq_refl eq_refl eq_refl) as [_ Hrejected].
  apply Hrejected. reflexivity.
Defined.

(** [test_invalid_num_steps_cases]: [num_steps=False]. *)
Lemma num_steps_must_be_a_positive_int_witness :
  fst (construct simple_f (PyFloat 0) (PyFloat 5) (PyFloat 1) (PyBool false))
  = Raise InvalidStepCount.
Proof.
  destruct (num_steps_must_be_a_positive_int
              (PyFun (pure_fun simple_f)) (PyFloat 0) (PyFloat 5) (PyFloat 1) (PyBool false)
              start (pure_fun simple_f) 0 5) as [_ Hrejected]; [reflexivity..|].
  apply Hrejected. right. exists 0%Z. split; [reflexivity|lia].
Defined.

Lemma create_1d_mesh_floats_witness :
  exists mesh a,
    create_1d_mesh two_steps = (Ok mesh, two_steps) /\ length mesh = 3%nat
    /\ mesh !! 0%nat = Some a /\ (a =? 0) = true.
Proof.
  destruct (create_1d_mesh_floats _ _ _ _ _ _ _ _ two_steps_constructed)
    as (ts & te & h & n & mesh & Ets & _ & En & _ & Eh & _ & _ & H & Lm & _ & _ & H0).
  change (o_t_start (self two_steps)) with (Some 0) in Ets. injection Ets as <-.
  change (o_h (self two_steps)) with (Some 0.5) in Eh. injection Eh as <-.
  change (o_num_steps (self two_steps)) with (Some 2%Z) in En. injection En as En.
  assert (n = 2%nat) as -> by lia.
  destruct (H0 eq_refl) as (a & Ea & Heq).
  exists mesh, a. split; [apply H; reflexivity|]. auto.
Defined.

Lemma ordered_bounds_give_a_step_that_is_not_negative_witness :
  exists (h : float) (mesh : list float) (a b : float),
    o_h (self two_steps) = Some h /\ (b64_of_Z 0 <=? h) = true
    /\ o_mesh (self two_steps) = Some mesh
    /\ mesh !! 0%nat = Some a /\ mesh !! 2%nat = Some b /\ (a <? b) = true.
Proof.
  destruct (ordered_bounds_give_a_step_that_is_not_negative _ _ _ _ _ _ _ _
              two_steps_constructed)
    as (ts & te & h & n & mesh & Ets & Ete & En & _ & Eh & Em & H).
  change (o_t_start (self two_steps)) with (Some 0) in Ets. injection Ets as <-.
  change (o_t_end (self two_steps)) with (Some 1) in Ete. injection Ete as <-.
  change (o_num_steps (self two_steps)) with (Some 2%Z) in En. injection En as En.
  assert (n = 2%nat) as -> by lia.
  destruct H as [Hh Hmesh]; [reflexivity..|].
  pose proof Eh as Eh'.
  change (o_h (self two_steps)) with (Some 0.5) in Eh'. injection Eh' as <-.
  destruct (Hmesh eq_refl) as (a & b & Ea & Eb & _ & _ & Hab).
  exists 0.5, mesh, a, b. auto 10.
Defined.
End OnBinary64.

(** * The solver with any callable, and the script around it *)

Section AnyCallable.
Context {F : Type} {ops : FloatOps F} {W : Type}.
Implicit Types (st : St F W) (g : callable F W).

Lemma bind_raise {A B} (m : M F W A) (c : A -> M F W B) st e st' :
  m st = (Raise e, st') -> bind m c st = (Raise e, st').
Proof. intros E. unfold bind. now rewrite E. Qed.

(** The loop of [solve] on an instance whose arrays are long enough, with
    a callable that may raise: every step makes one call; the loop returns
    after [m] of them, or stops on what a call raised. *)
Lemma euler_loop_outcome g (mesh : list F) (h : F) (m : nat) :
  forall (j : nat) (y : list F) st,
    o_mesh (self st) = Some mesh -> o_h (self st) = Some h ->
    o_f (self st) = Some g ->
    (j + m <= length mesh)%nat -> (j + m < length y)%nat ->
    exists (r : Res (list F)) st' (k : nat),
      for_each (seqZ (Z.of_nat j) (Z.of_nat m)) solve_step y st = (r, st')
      /\ self st' = self st
      /\ length (calls st') = (length (calls st) + k)%nat
      /\ match r with
         | Ok y' => k = m /\ length y' = length y
                    /\ forall i : nat, (i <= j)%nat -> y' !! i = y !! i
         | Raise e => (exists what, e = Raised what) /\ (1 <= k <= m)%nat
         end.
Proof.
  induction m as [|m IH]; intros j y st Em Eh Ef Hmesh Hy.
  - exists (Ok y), st, 0%nat. rewrite seqZ_nil by lia. simpl.
    repeat split; auto.
  - rewrite seqZ_cons by lia. simpl.
    destruct (lookup_lt_is_Some_2 mesh j) as [t Et]; [lia|].
    destruct (lookup_lt_is_Some_2 y j) as [yk Ey]; [lia|].
    unfold bind.
    rewrite (solve_step_run st j y mesh h g t yk) by (auto; lia).
    destruct (g (world st) t yk) as [[v|what] w] eqn:Eg; simpl.
    + replace (Z.succ (Z.of_nat j)) with (Z.of_nat (S j)) by lia.
      replace (Z.pred (Z.of_nat (S m))) with (Z.of_nat m) by lia.
      destruct (IH (S j) (<[S j := f_add yk (f_mul h v)]> y) (after_call st t yk w))
        as (r & st' & k & Erun & Eself & Ecalls & Hr);
        auto; try (rewrite ?length_insert; lia).
      exists r, st', (S k). split; [exact Erun|]. split; [exact Eself|]. split.
      * rewrite Ecalls. simpl. rewrite length_app. simpl. lia.
      * destruct r as [y'|e].
        -- destruct Hr as (-> & Hlen & Hlow). rewrite length_insert in Hlen.
           split; [reflexivity|]. split; [exact Hlen|].
           intros i Hi. rewrite Hlow by lia. now rewrite list_lookup_insert_ne by lia.
        -- destruct Hr as [Hwhat Hk]. split; [exact Hwhat|lia].
    + eexists _, _, 1%nat. split; [reflexivity|]. split; [reflexivity|]. split.
      * simpl. rewrite length_app. reflexivity.
      * split; [eauto|lia].
Qed.

(** [solve] on an instance with all it reads in place. *)
Lemma solve_outcome st g (mesh : list F) (h x0 : F) (m : nat) :
  o_num_steps (self st) = Some (Z.of_nat m) -> o_y_0 (self st) = Some x0 ->
  o_mesh (self st) = Some mesh -> o_h (self st) = Some h ->
  o_f (self st) = Some g -> (m <= length mesh)%nat ->
  exists (r : Res (list F)) st' (k : nat),
    solve st = (r, st')
    /\ self st' = self st
    /\ length (calls st') = (length (calls st) + k)%nat
    /\ match r with
       | Ok sol => k = m /\ length sol = S m /\ sol !! 0%nat = Some x0
       | Raise e => (exists what, e = Raised what) /\ (1 <= k <= m)%nat
       end.
Proof.
  intros En Ey Em Eh Ef Hlen.
  set (y1 := <[0%nat := x0]> (replicate (S m) (f_of_Z 0))).
  assert (Ly1 : length y1 = S m).
  { unfold y1. now rewrite length_insert, length_replicate. }
  destruct (euler_loop_outcome g mesh h m 0 y1 st)
    as (r & st' & k & Erun & Eself & Ecalls & Hr); auto; try lia.
  exists r, st', k. split.
  - unfold solve.
    rewrite (bind_ok _ _ _ _ _ (getattr_some _ _ _ _ En)).
    replace (Z.of_nat m + 1) with (Z.of_nat (S m)) by lia.
    erewrite bind_ok by (unfold lift; rewrite np_zeros_nat; reflexivity).
    rewrite (bind_ok _ _ _ _ _ (getattr_some _ _ _ _ Ey)).
    erewrite bind_ok; cycle 1.
    { unfold lift. change 0 with (Z.of_nat 0).
      rewrite arr_set_nat by (rewrite length_replicate; lia). reflexivity. }
    rewrite (bind_ok _ _ _ _ _ (getattr_some _ _ _ _ En)).
    unfold range. change 0 with (Z.of_nat 0).
    destruct r as [sol|e].
    + erewrite bind_ok by exact Erun. reflexivity.
    + erewrite bind_raise by exact Erun. reflexivity.
  - split; [exact Eself|]. split; [exact Ecalls|].
    destruct r as [sol|e]; [|exact Hr]. destruct Hr as (-> & Hl & Hlow).
    split; [reflexivity|]. split; [congruence|].
    rewrite Hlow by lia. unfold y1. apply list_lookup_insert_eq.
    rewrite length_replicate. lia.
Qed.

(** ** The calls [solve] makes *)

Lemma replay_length g (args : list (F * F)) : forall w : W,
  length (fst (replay g w args)) = length args.
Proof.
  induction args as [|[t y] rest IH]; intros w; simpl; [reflexivity|].
  destruct (g w t y) as [r w1]. specialize (IH w1).
  destruct (replay g w1 rest) as [rs w2]. simpl in *. now rewrite IH.
Qed.

(** The loop of [solve] once more, with what each call was given and what
    it did. *)
Lemma euler_loop_trace g (mesh : list F) (h : F) (m : nat) :
  forall (j : nat) (y : list F) st,
    o_mesh (self st) = Some mesh -> o_h (self st) = Some h ->
    o_f (self st) = Some g ->
    (j + m <= length mesh)%nat -> (j + m < length y)%nat ->
    exists (r : Res (list F)) st' (args : list (F * F)) (outs : list (outcome F)),
      for_each (seqZ (Z.of_nat j) (Z.of_nat m)) solve_step y st = (r, st')
      /\ calls st' = calls st ++ args
      /\ replay g (world st) args = (outs, world st')
      /\ match r with
         | Ok y' =>
             length args = m
             /\ (forall i : nat, (i <= j)%nat -> y' !! i = y !! i)
             /\ forall i : nat, (i < m)%nat ->
                  exists (t yk v : F),
                    args !! i = Some (t, yk) /\ outs !! i = Some (Returns v)
                    /\ mesh !! (j + i)%nat = Some t /\ y' !! (j + i)%nat = Some yk
                    /\ y' !! S (j + i) = Some (f_add yk (f_mul h v))
         | Raise e =>
             exists (what : string) (vs : list F),
               e = Raised what /\ outs = (Returns <$> vs) ++ [Throws what]
               /\ (length args <= m)%nat
         end.
Proof.
  induction m as [|m IH]; intros j y st Em Eh Ef Hmesh Hy.
  - exists (Ok y), st, [], []. rewrite seqZ_nil by lia. simpl.
    rewrite app_nil_r. repeat split; auto. intros i Hi. lia.
  - rewrite seqZ_cons by lia. simpl.
    destruct (lookup_lt_is_Some_2 mesh j) as [t Et]; [lia|].
    destruct (lookup_lt_is_Some_2 y j) as [yk Ey]; [lia|].
    unfold bind.
    rewrite (solve_step_run st j y mesh h g t yk) by (auto; lia).
    destruct (g (world st) t yk) as [[v|what] w] eqn:Eg; simpl.
    + replace (Z.succ (Z.of_nat j)) with (Z.of_nat (S j)) by lia.
      replace (Z.pred (Z.of_nat (S m))) with (Z.of_nat m) by lia.
      set (y1 := <[S j := f_add yk (f_mul h v)]> y).
      destruct (IH (S j) y1 (after_call st t yk w))
        as (r & st' & args & outs & Erun & Ecalls & Ereplay & Hr);
        auto; try (unfold y1; rewrite ?length_insert; lia).
      exists r, st', ((t, yk) :: args), (Returns v :: outs).
      split; [exact Erun|]. split.
      { rewrite Ecalls. simpl. now rewrite <- app_assoc. }
      split.
      { simpl. rewrite Eg. simpl in Ereplay. now rewrite Ereplay. }
      destruct r as [y'|e].
      * destruct Hr as (Hlen & Hlow & Hrec).
        assert (Hj : y' !! j = Some yk).
        { rewrite Hlow by lia. unfold y1. now rewrite list_lookup_insert_ne by lia. }
        assert (HSj : y' !! S j = Some (f_add yk (f_mul h v))).
        { rewrite Hlow by lia. unfold y1. apply list_lookup_insert_eq. lia. }
        split; [simpl; now rewrite Hlen|]. split.
        -- intros i Hi. rewrite Hlow by lia. unfold y1.
           now rewrite list_lookup_insert_ne by lia.
        -- intros [|i] Hi.
           ++ exists t, yk, v. rewrite Nat.add_0_r. auto.
           ++ destruct (Hrec i) as (t' & yk' & v' & H1 & H2 & H3 & H4 & H5); [lia|].
              exists t', yk', v'. replace (j + S i)%nat with (S j + i)%nat by lia.
              auto.
      * destruct Hr as (what & vs & -> & -> & Hlen).
        exists what, (v :: vs). split; [reflexivity|]. split; [reflexivity|].
        simpl. lia.
    + exists (Raise (Raised what)), (after_call st t yk w), [(t, yk)], [Throws what].
      split; [reflexivity|]. split; [reflexivity|]. split.
      { simpl. now rewrite Eg. }
      exists what, []. split; [reflexivity|]. split; [reflexivity|]. simpl. lia.
Qed.

(** [solve] on an instance with all it reads in place, call by call. *)
Lemma solve_trace st g (mesh : list F) (h x0 : F) (m : nat) :
  o_num_steps (self st) = Some (Z.of_nat m) -> o_y_0 (self st) = Some x0 ->
  o_mesh (self st) = Some mesh -> o_h (self st) = Some h ->
  o_f (self st) = Some g -> (m <= length mesh)%nat ->
  exists (r : Res (list F)) st' (args : list (F * F)) (outs : list (outcome F)),
    solve st = (r, st')
    /\ calls st' = calls st ++ args
    /\ replay g (world st) args = (outs, world st')
    /\ match r with
       | Ok sol =>
           length args = m
           /\ forall i : nat, (i < m)%nat ->
                exists (t yk v : F),
                  args !! i = Some (t, yk) /\ outs !! i = Some (Returns v)
                  /\ mesh !! i = Some t /\ sol !! i = Some yk
                  /\ sol !! S i = Some (f_add yk (f_mul h v))
       | Raise e =>
           exists (what : string) (vs : list F),
             e = Raised what /\ outs = (Returns <$> vs) ++ [Throws what]
             /\ (1 <= length args <= m)%nat
       end.
Proof.
  intros En Ey Em Eh Ef Hlen.
  set (y1 := <[0%nat := x0]> (replicate (S m) (f_of_Z 0))).
  assert (Ly1 : length y1 = S m).
  { unfold y1. now rewrite length_insert, length_replicate. }
  destruct (euler_loop_trace g mesh h m 0 y1 st)
    as (r & st' & args & outs & Erun & Ecalls & Ereplay & Hr); auto; try lia.
  exists r, st', args, outs. split.
  - unfold solve.
    rewrite (bind_ok _ _ _ _ _ (getattr_some _ _ _ _ En)).
    replace (Z.of_nat m + 1) with (Z.of_nat (S m)) by lia.
    erewrite bind_ok by (unfold lift; rewrite np_zeros_nat; reflexivity).
    rewrite (bind_ok _ _ _ _ _ (getattr_some _ _ _ _ Ey)).
    erewrite bind_ok; cycle 1.
    { unfold lift. change 0 with (Z.of_nat 0).
      rewrite arr_set_nat by (rewrite length_replicate; lia). reflexivity. }
    rewrite (bind_ok _ _ _ _ _ (getattr_some _ _ _ _ En)).
    unfold range. change 0 with (Z.of_nat 0).
    destruct r as [sol|e].
    + erewrite bind_ok by exact Erun. reflexivity.
    + erewrite bind_raise by exact Erun. reflexivity.
  - split; [exact Ecalls|]. split; [exact Ereplay|].
    destruct r as [sol|e].
    + destruct Hr as (Hl & _ & Hrec). split; [exact Hl|]. exact Hrec.
    + destruct Hr as (what & vs & -> & -> & Hl).
      exists what, vs. split; [reflexivity|]. split; [reflexivity|].
      pose proof (replay_length g args (world st)) as Hlen'.
      rewrite Ereplay in Hlen'. simpl in Hlen'.
      rewrite length_app, length_fmap in Hlen'. simpl in Hlen'. lia.
Qed.

(** What a construction that returned has built. *)
Lemma constructed_shape (f t_start t_end y_0 num_steps : PyVal F W) st0 st1 :
  Euler1D_Solve f t_start t_end y_0 num_steps st0 = (Ok tt, st1) ->
  exists g (ts te x0 h : F) (m : nat) (mesh sol : list F),
    self st1 = solver_obj g ts te (Z.of_nat m) x0 mesh h (Some sol)
    /\ (1 <= m)%nat /\ length mesh = S m /\ length sol = S m
    /\ sol !! 0%nat = Some x0
    /\ length (calls st1) = (length (calls st0) + m)%nat.
Proof.
  intros Hrun.
  destruct (Euler1D_Solve_ok_inv _ _ _ _ _ _ _ Hrun)
    as (g & ts & te & n & x0 & mesh & h & sol & sta
        & Hacc & Hmesh & _ & Hsol & _ & -> & Hself).
  destruct Hacc as (_ & _ & _ & _ & _ & _ & _ & _ & Hn & _).
  apply np_linspace_length in Hmesh.
  match type of Hsol with solve ?s = _ =>
    destruct (solve_outcome s g mesh h x0 (Z.to_nat n))
      as (r & st' & k & Erun & _ & Ecalls & Hr) end;
    try reflexivity; try lia.
  { simpl. now rewrite Z2Nat.id by lia. }
  rewrite Hsol in Erun. injection Erun as <- <-.
  destruct Hr as (-> & Lsol & Hfirst).
  exists g, ts, te, x0, h, (Z.to_nat n), mesh, sol.
  rewrite Z2Nat.id by lia. split; [exact Hself|].
  split; [lia|]. split; [lia|]. split; [exact Lsol|]. split; [exact Hfirst|].
  exact Ecalls.
Qed.

End AnyCallable.

Section ScriptFacts.
Context {F : Type} {ops : FloatOps F} {W : Type}.
Implicit Types (s : Sys F W) (o : Out F) (st : St F W).
Local Open Scope io_scope.

Lemma io_bind_ok {A B} (m : IO F W A) (c : A -> IO F W B) s a s' :
  m s = (IOk a, s') -> io_bind m c s = c a s'.
Proof. intros E. unfold io_bind. now rewrite E. Qed.

Lemma io_bind_raise {A B} (m : IO F W A) (c : A -> IO F W B) s e s' :
  m s = (IORaise e, s') -> io_bind m c s = (IORaise e, s').
Proof. intros E. unfold io_bind. now rewrite E. Qed.

Lemma run_getattr {A} (field : Obj F W -> option A) name s a :
  field (self (prog s)) = Some a -> run (getattr field name) s = (IOk a, s).
Proof. intros E. destruct s. unfold run, getattr. simpl in *. now rewrite E. Qed.

(** The rows of the frame [csv_export] builds. *)
Lemma df_rows_two_columns (a b : string) (mesh sol : list F) :
  length mesh = length sol ->
  df_rows {| df_columns := [(a, mesh); (b, sol)] |}
  = zip_with (fun t y => [t; y]) mesh sol.
Proof.
  intros Hlen. unfold df_rows. simpl.
  apply list_eq. intros i. rewrite list_lookup_fmap, lookup_zip_with.
  destruct (decide (i < length mesh)%nat) as [Hi|Hi].
  - rewrite lookup_seq_lt by exact Hi. simpl.
    destruct (lookup_lt_is_Some_2 mesh i Hi) as [t ->].
    destruct (lookup_lt_is_Some_2 sol i) as [y ->]; [lia|]. reflexivity.
  - rewrite lookup_seq_ge by lia. simpl.
    now rewrite (lookup_ge_None_2 mesh i) by lia.
Qed.

(** [plot_solution] on an instance whose arrays have one length. *)
Lemma plot_solution_run s (mesh sol : list F) (h : F) (n : Z) :
  o_mesh (self (prog s)) = Some mesh -> o_solution (self (prog s)) = Some sol ->
  o_h (self (prog s)) = Some h -> o_num_steps (self (prog s)) = Some n ->
  length mesh = length sol ->
  plot_solution s
  = (IOk tt,
     {| prog := prog s;
        out := {| plt := plt (out s) ++ figure mesh sol h n; files := files (out s);
                  can_write := can_write (out s); stdout := stdout (out s) |} |}).
Proof.
  intros Em Es Eh En Hlen. destruct s as [st o]. simpl in *.
  unfold plot_solution, io_bind, run, getattr, plt_plot_xy, plt_do, with_out,
    is_None, io_ret, figure. simpl.
  rewrite Es; simpl. rewrite Em; simpl. rewrite Es; simpl. rewrite Eh; simpl.
  rewrite En; simpl. rewrite Hlen, Nat.eqb_refl. simpl.
  now rewrite <- !app_assoc.
Qed.

(** [csv_export] on an instance whose arrays have one length. *)
Lemma csv_export_run s (filename : string) (mesh sol : list F) :
  o_mesh (self (prog s)) = Some mesh -> o_solution (self (prog s)) = Some sol ->
  length mesh = length sol ->
  csv_export filename s
  = if can_write (out s) filename
    then (IOk tt,
          {| prog := prog s;
             out := {| plt := plt (out s);
                       files := <[filename := table mesh sol]> (files (out s));
                       can_write := can_write (out s);
                       stdout := stdout (out s) ++ [("Solution exported to " ++ filename)%string]
                     |} |})
    else (IORaise (OSError filename), s).
Proof.
  intros Em Es Hlen. destruct s as [st o]. simpl in *.
  unfold csv_export, io_bind, run, getattr, lift, pd_DataFrame, to_csv, print, with_out.
  simpl. rewrite Em; simpl. rewrite Es; simpl.
  rewrite Hlen, Nat.eqb_refl. simpl.
  destruct (can_write o filename); [|reflexivity].
  unfold table. now rewrite df_rows_two_columns.
Qed.

(** The constructor on what [main.py] passes it: the callable [f], floats
    from [getfloat] and an integer from [getint]. *)
Lemma construct_from_config (f : callable F W) (n : Z) (ds de y0 : F) st :
  Euler1D_Solve (PyFun f) (PyFloat ds) (PyFloat de) (PyFloat y0) (PyInt n) st
  = if f_leb de ds
    then (Raise RangeViolation, update_self (with_f f) (fresh st))
    else if n <=? 0
    then (Raise InvalidStepCount,
          update_self (with_t_end de)
            (update_self (with_t_start ds) (update_self (with_f f) (fresh st))))
    else compute_derived
           (update_self (with_y_0 y0)
              (update_self (with_num_steps n)
                 (update_self (with_t_end de)
                    (update_self (with_t_start ds)
                       (update_self (with_f f) (fresh st)))))).
Proof.
  unfold Euler1D_Solve. rewrite init_unfold. simpl.
  destruct (f_leb de ds); [reflexivity|]. now destruct (n <=? 0).
Qed.
End ScriptFacts.

(** * More of the solver: any callable, plotting, exporting, the script *)

Section Usage.
Context {F : Type} {ops : FloatOps F} {W : Type}.
Implicit Types (s : Sys F W) (st : St F W).

(** A construction that returns has called the derivative function
    exactly [num_steps] times, whatever the function does besides
    returning; the instance then holds a mesh and a solution of
    [num_steps + 1] elements each, and [solution[0]] is [y_0]. *)
Theorem construction_calls_f_once_per_step
    (f t_start t_end y_0 num_steps : PyVal F W) st0 st1 :
  Euler1D_Solve f t_start t_end y_0 num_steps st0 = (Ok tt, st1) ->
  exists (n : nat) (x0 : F) (mesh sol : list F),
    o_num_steps (self st1) = Some (Z.of_nat n) /\ o_y_0 (self st1) = Some x0
    /\ o_mesh (self st1) = Some mesh /\ o_solution (self st1) = Some sol
    /\ length mesh = S n /\ length sol = S n /\ sol !! 0%nat = Some x0
    /\ length (calls st1) = (length (calls st0) + n)%nat.
Proof.
  intros Hrun.
  destruct (constructed_shape _ _ _ _ _ _ _ Hrun)
    as (g & ts & te & x0 & h & m & mesh & sol & Hself & _ & Lm & Ls & H0 & Hcalls).
  exists m, x0, mesh, sol. rewrite Hself. simpl. auto 10.
Qed.


(** When what comes out of the constructor is an exception raised by the
    derivative function (one that returns a float or raises, and leaves the
    solver alone): the arguments had passed every check; the function was
    called at least once and at most [num_steps] times; every call before
    the last returned, the last one raised, and the exception is that very
    one, unchanged; [solution] is not set on the instance, which the caller
    never gets. *)
Theorem construction_passes_on_what_f_raises
    (f t_start t_end y_0 num_steps : PyVal F W) st (what : string) st' :
  Euler1D_Solve f t_start t_end y_0 num_steps st = (Raise (Raised what), st') ->
  valid_arguments f t_start t_end y_0 num_steps = true
  /\ exists (g : callable F W) (n : Z) (args : list (F * F)) (vs : list F),
       py_callable f = Some g /\ int_value num_steps = Some n
       /\ calls st' = calls st ++ args
       /\ replay g (world st) args = ((Returns <$> vs) ++ [Throws what], world st')
       /\ (1 <= length args)%nat /\ Z.of_nat (length args) <= n
       /\ o_solution (self st') = None.
Proof.
  unfold Euler1D_Solve, valid_arguments. rewrite init_unfold.
  destruct (py_callable f) as [g|]; simpl; [|discriminate].
  destruct (isinstance_int_float t_start) eqn:Its; simpl; [|discriminate].
  destruct (isinstance_int_float t_end) eqn:Ite; simpl; [|discriminate].
  destruct (py_ge_numeric _ _ Its Ite) as [b ->]. destruct b; simpl; [discriminate|].
  destruct (py_float t_start) as [ts|e1] eqn:Fts; simpl.
  2:{ intros [= -> _]. now destruct (py_float_numeric _ _ Its Fts). }
  destruct (py_float t_end) as [te|e1] eqn:Fte; simpl.
  2:{ intros [= -> _]. now destruct (py_float_numeric _ _ Ite Fte). }
  destruct (isinstance_int num_steps); simpl; [|discriminate].
  destruct (int_value num_steps) as [n|]; simpl; [|discriminate].
  destruct (Z.leb_spec n 0) as [Hle|Hn]; simpl; [discriminate|].
  destruct (Z.ltb_spec 0 n) as [_|]; [|lia]. simpl.
  destruct (isinstance_int_float y_0) eqn:Iy; simpl; [|discriminate].
  destruct (isinstance_bool y_0); simpl; [discriminate|].
  destruct (py_float y_0) as [x0|e1] eqn:Fy; simpl.
  2:{ intros [= -> _]. now destruct (py_float_numeric _ _ Iy Fy). }
  rewrite compute_derived_unfold.
  erewrite create_1d_mesh_run by reflexivity. simpl fst.
  destruct (np_linspace_samples ts te (Z.to_nat n)) as (mesh & Em & Lm & _); [lia|].
  rewrite Z2Nat.id in Em by lia. rewrite Em. cbv beta iota zeta.
  unfold py_truediv, py_float_of_int.
  destruct (Z.abs n <? float_int_bound); [|discriminate].
  destruct (Z.eqb_spec n 0) as [|_]; [lia|]. cbv beta iota zeta.
  match goal with |- context [solve ?s] => set (stb := s) end.
  destruct (solve_outcome stb g mesh (f_div (f_sub te ts) (f_of_Z n)) x0 (Z.to_nat n))
    as (r & stc & k & Erun & Eself & _); try reflexivity; try lia.
  { simpl. now rewrite Z2Nat.id by lia. }
  destruct (solve_trace stb g mesh (f_div (f_sub te ts) (f_of_Z n)) x0 (Z.to_nat n))
    as (r' & stc' & args & outs & Erun' & Ecalls & Ereplay & Hr);
    try reflexivity; try lia.
  { simpl. now rewrite Z2Nat.id by lia. }
  rewrite Erun in Erun'. injection Erun' as <- <-.
  rewrite Erun. destruct r as [sol|e1]; [discriminate|].
  intros [= -> <-]. destruct Hr as (what' & vs & [= <-] & -> & Hl).
  split; [reflexivity|]. exists g, n, args, vs.
  split; [reflexivity|]. split; [reflexivity|]. split; [exact Ecalls|].
  split; [exact Ereplay|]. split; [lia|]. split; [lia|]. now rewrite Eself.
Qed.

(** [plot_solution()] on a constructed solver returns: the guard on
    [self.solution] does not fire, and [plt.plot] gets two arrays of one
    length.  It makes the nine pyplot calls in order, with the stored mesh
    as abscissae, the stored solution as ordinates and the stored [h] and
    [num_steps] in the legend, and touches nothing else: the instance, the
    files and the terminal are as before. *)
Theorem plot_solution_draws_the_stored_solution
    (f t_start t_end y_0 num_steps : PyVal F W) st0 s :
  Euler1D_Solve f t_start t_end y_0 num_steps st0 = (Ok tt, prog s) ->
  exists (mesh sol : list F) (h : F) (n : Z),
    o_mesh (self (prog s)) = Some mesh /\ o_solution (self (prog s)) = Some sol
    /\ o_h (self (prog s)) = Some h /\ o_num_steps (self (prog s)) = Some n
    /\ length mesh = length sol
    /\ plot_solution s
       = (IOk tt,
          {| prog := prog s;
             out := {| plt := plt (out s) ++ figure mesh sol h n;
                       files := files (out s); can_write := can_write (out s);
                       stdout := stdout (out s) |} |}).
Proof.
  intros Hrun.
  destruct (constructed_shape _ _ _ _ _ _ _ Hrun)
    as (g & ts & te & x0 & h & m & mesh & sol & Hself & _ & Lm & Ls & _).
  exists mesh, sol, h, (Z.of_nat m).
  assert (Hlen : length mesh = length sol) by congruence.
  rewrite Hself. simpl. do 4 (split; [reflexivity|]). split; [exact Hlen|].
  apply plot_solution_run; rewrite ?Hself; auto.
Qed.

(** [csv_export(filename)] on a constructed solver, when the file can be
    written: the file then holds the header [t, y(t)] and [num_steps + 1]
    rows, row [i] being [mesh[i], solution[i]]; every other file is as
    before; the line [Solution exported to <filename>] is printed; nothing
    is plotted and the instance is unchanged. *)
Theorem csv_export_writes_mesh_and_solution
    (f t_start t_end y_0 num_steps : PyVal F W) st0 s (filename : string) :
  Euler1D_Solve f t_start t_end y_0 num_steps st0 = (Ok tt, prog s) ->
  can_write (out s) filename = true ->
  exists (mesh sol : list F) (n : nat) (rows : list (list F)) s',
    o_mesh (self (prog s)) = Some mesh /\ o_solution (self (prog s)) = Some sol
    /\ o_num_steps (self (prog s)) = Some (Z.of_nat n)
    /\ csv_export filename s = (IOk tt, s')
    /\ prog s' = prog s
    /\ files (out s') !! filename
       = Some {| csv_header := ["t"; "y(t)"]; csv_rows := rows |}
    /\ length rows = S n
    /\ (forall i : nat, (i <= n)%nat ->
         exists t y, mesh !! i = Some t /\ sol !! i = Some y
                     /\ rows !! i = Some [t; y])
    /\ (forall other : string,
         other <> filename -> files (out s') !! other = files (out s) !! other)
    /\ stdout (out s') = stdout (out s) ++ [("Solution exported to " ++ filename)%string]
    /\ plt (out s') = plt (out s).
Proof.
  intros Hrun Hw.
  destruct (constructed_shape _ _ _ _ _ _ _ Hrun)
    as (g & ts & te & x0 & h & m & mesh & sol & Hself & _ & Lm & Ls & _).
  assert (Hlen : length mesh = length sol) by congruence.
  exists mesh, sol, m, (zip_with (fun t y => [t; y]) mesh sol).
  eexists. rewrite Hself. simpl. do 3 (split; [reflexivity|]).
  split.
  { rewrite (csv_export_run s filename mesh sol), Hw by (rewrite ?Hself; auto).
    reflexivity. }
  simpl. split; [reflexivity|].
  split; [apply lookup_insert_eq|].
  split; [rewrite length_zip_with; lia|].
  split.
  { intros i Hi.
    destruct (lookup_lt_is_Some_2 mesh i) as [t Et]; [lia|].
    destruct (lookup_lt_is_Some_2 sol i) as [y Ey]; [lia|].
    exists t, y. rewrite lookup_zip_with, Et, Ey. auto. }
  split; [intros other Hne; now apply lookup_insert_ne|].
  split; reflexivity.
Qed.

(** [csv_export(filename)] when the file cannot be written: the
    [OSError] of [to_csv] comes out, and the success message is not
    printed; nothing at all has changed. *)
Theorem csv_export_fails_without_a_trace
    (f t_start t_end y_0 num_steps : PyVal F W) st0 s (filename : string) :
  Euler1D_Solve f t_start t_end y_0 num_steps st0 = (Ok tt, prog s) ->
  can_write (out s) filename = false ->
  csv_export filename s = (IORaise (OSError filename), s).
Proof.
  intros Hrun Hw.
  destruct (constructed_shape _ _ _ _ _ _ _ Hrun)
    as (g & ts & te & x0 & h & m & mesh & sol & Hself & _ & Lm & Ls & _).
  rewrite (csv_export_run s filename mesh sol), Hw; rewrite ?Hself; auto.
  simpl. congruence.
Qed.

(** The script, once the configuration is read, when the constructor
    returns and [solution.csv] can be written: it returns, having made the
    pyplot calls of one [plot_solution()] and then written [solution.csv],
    and what it plotted is what it exported: the mesh and the solution of
    the solver it built, with that solver's [h] and [n] in the legend;
    the message is printed last. *)
Theorem main_plots_what_it_exports
    (f : callable F W) (n : Z) (ds de y0 : F) s st1 :
  Euler1D_Solve (PyFun f) (PyFloat ds) (PyFloat de) (PyFloat y0) (PyInt n) (prog s)
  = (Ok tt, st1) ->
  can_write (out s) "solution.csv" = true ->
  exists (mesh sol : list F) (h : F),
    o_mesh (self st1) = Some mesh /\ o_solution (self st1) = Some sol
    /\ o_h (self st1) = Some h /\ o_num_steps (self st1) = Some n
    /\ main f n ds de y0 s
       = (IOk tt,
          {| prog := st1;
             out := {| plt := plt (out s) ++ figure mesh sol h n;
                       files := <["solution.csv" := table mesh sol]> (files (out s));
                       can_write := can_write (out s);
                       stdout := stdout (out s) ++ ["Solution exported to solution.csv"]
                     |} |}).
Proof.
  intros Erun Hw.
  destruct (Euler1D_Solve_ok_inv _ _ _ _ _ _ _ Erun)
    as (g' & ts' & te' & n' & x0' & mesh & h & sol & sta
        & Hacc & _ & _ & _ & _ & _ & Hself).
  destruct Hacc as (_ & _ & _ & _ & _ & _ & _ & Vn & _). simpl in Vn.
  injection Vn as <-.
  destruct (constructed_shape _ _ _ _ _ _ _ Erun)
    as (g & ts & te & x0 & h' & m & mesh' & sol' & Hself' & _ & Lm & Ls & _).
  rewrite Hself in Hself'. injection Hself' as _ _ _ _ _ -> _ ->.
  assert (Hlen : length mesh' = length sol') by congruence.
  exists mesh', sol', h. rewrite Hself. simpl. do 4 (split; [reflexivity|]).
  unfold main. erewrite io_bind_ok; cycle 1.
  { unfold run. rewrite Erun. reflexivity. }
  erewrite io_bind_ok; cycle 1.
  { apply (plot_solution_run _ mesh' sol' h n); simpl; rewrite ?Hself; auto. }
  rewrite (csv_export_run _ "solution.csv" mesh' sol') by (simpl; rewrite ?Hself; auto).
  simpl. now rewrite Hw.
Qed.

(** Where the script fails, once the configuration is read.  Either in
    the constructor: its exception comes out, and nothing has been plotted,
    written or printed; that exception is
    [ValueError("t_start must be less than t_end.")] when
    [domain_start >= domain_end], and otherwise
    [ValueError("num_steps must be a pos integer.")] when [n <= 0], both
    before the derivative function is called.  Or, the solver built and its
    figure shown, on a [solution.csv] that cannot be written: the [OSError]
    comes out, no file has changed and the success message is not printed.
    [plot_solution()] is never where it fails. *)
Theorem main_fails_in_the_constructor_or_on_the_file
    (f : callable F W) (n : Z) (ds de y0 : F) s (e : io_exn) s' :
  main f n ds de y0 s = (IORaise e, s') ->
  (exists (e0 : exn) st1,
     Euler1D_Solve (PyFun f) (PyFloat ds) (PyFloat de) (PyFloat y0) (PyInt n) (prog s)
     = (Raise e0, st1)
     /\ e = InSolver e0 /\ s' = {| prog := st1; out := out s |}
     /\ (f_leb de ds = true -> e0 = RangeViolation /\ calls st1 = calls (prog s))
     /\ (f_leb de ds = false -> n <= 0 ->
         e0 = InvalidStepCount /\ calls st1 = calls (prog s)))
  \/ (exists st1 (mesh sol : list F) (h : F),
        Euler1D_Solve (PyFun f) (PyFloat ds) (PyFloat de) (PyFloat y0) (PyInt n) (prog s)
        = (Ok tt, st1)
        /\ o_mesh (self st1) = Some mesh /\ o_solution (self st1) = Some sol
        /\ o_h (self st1) = Some h
        /\ e = OSError "solution.csv" /\ can_write (out s) "solution.csv" = false
        /\ s' = {| prog := st1;
                   out := {| plt := plt (out s) ++ figure mesh sol h n;
                             files := files (out s); can_write := can_write (out s);
                             stdout := stdout (out s) |} |}).
Proof.
  unfold main. unfold io_bind at 1. unfold run.
  destruct (Euler1D_Solve _ _ _ _ _ (prog s)) as [[[]|e1] st1] eqn:Erun.
  - destruct (constructed_shape _ _ _ _ _ _ _ Erun)
      as (g & ts & te & x0 & h & m & mesh & sol & Hself & _ & Lm & Ls & _).
    assert (Hlen : length mesh = length sol) by congruence.
    assert (Hn : Z.of_nat m = n).
    { destruct (Euler1D_Solve_ok_inv _ _ _ _ _ _ _ Erun)
        as (g' & ts' & te' & n' & x0' & mesh' & h' & sol' & sta
            & Hacc & _ & _ & _ & _ & _ & Hself').
      destruct Hacc as (_ & _ & _ & _ & _ & _ & _ & Vn & _). simpl in Vn.
      rewrite Hself' in Hself. injection Vn as <-. now injection Hself. }
    erewrite io_bind_ok; cycle 1.
    { apply (plot_solution_run _ mesh sol h (Z.of_nat m)); simpl; rewrite ?Hself; auto. }
    rewrite (csv_export_run _ "solution.csv" mesh sol) by (simpl; rewrite ?Hself; auto).
    simpl. destruct (can_write (out s) "solution.csv") eqn:Hw; [discriminate|].
    intros [= <- <-]. right. exists st1, mesh, sol, h. rewrite Hself, Hn. simpl.
    auto 10.
  - intros [= <- <-]. left. exists e1, st1.
    split; [reflexivity|]. split; [reflexivity|]. split; [reflexivity|].
    rewrite construct_from_config in Erun. split.
    + intros Hord. rewrite Hord in Erun. injection Erun as <- <-. auto.
    + intros Hord Hle. rewrite Hord in Erun.
      destruct (Z.leb_spec n 0) as [_|]; [|lia]. injection Erun as <- <-. auto.
Qed.
End Usage.

(** ** The statements above at work on the two-step problem *)

Module UsageOnBinary64.
Import Run RunScript.
Open Scope float_scope.

Lemma construction_calls_f_once_per_step_witness :
  exists sol : list float,
    o_solution (self two_steps) = Some sol /\ length sol = 3%nat
    /\ length (calls two_steps) = 2%nat.
Proof.
  destruct (construction_calls_f_once_per_step _ _ _ _ _ _ _
              OnBinary64.two_steps_constructed)
    as (n & x0 & mesh & sol & En & _ & _ & Es & _ & Ls & _ & Hc).
  change (o_num_steps (self two_steps)) with (Some 2%Z) in En. injection En as En.
  assert (n = 2%nat) as -> by lia.
  exists sol. auto.
Defined.


(** A derivative function that raises stops the construction at its first
    call. *)
Lemma construction_passes_on_what_f_raises_witness :
  exists (args : list (float * float)),
    calls (snd (Euler1D_Solve (PyFun failing_f) (PyFloat 0) (PyFloat 1)
                  (PyFloat 1) (PyInt 2) start)) = args
    /\ (1 <= length args)%nat /\ (Z.of_nat (length args) <= 2)%Z.
Proof.
  assert (Erun : Euler1D_Solve (PyFun failing_f) (PyFloat 0) (PyFloat 1) (PyFloat 1)
                   (PyInt 2) start
                 = (Raise (Raised "ZeroDivisionError"),
                    snd (Euler1D_Solve (PyFun failing_f) (PyFloat 0) (PyFloat 1)
                           (PyFloat 1) (PyInt 2) start))) by reflexivity.
  destruct (construction_passes_on_what_f_raises _ _ _ _ _ _ _ _ Erun)
    as (_ & g & n & args & vs & _ & Vn & Ec & _ & H1 & Hn & _).
  injection Vn as <-. exists args. auto.
Defined.

Lemma plot_solution_draws_the_stored_solution_witness :
  exists (mesh sol : list float) (h : float) (n : Z),
    o_mesh (self two_steps) = Some mesh /\ o_solution (self two_steps) = Some sol
    /\ o_h (self two_steps) = Some h /\ o_num_steps (self two_steps) = Some n
    /\ length mesh = length sol
    /\ plot_solution {| prog := two_steps; out := quiet |}
       = (IOk tt,
          {| prog := two_steps;
             out := {| plt := figure mesh sol h n; files := ∅;
                       can_write := fun _ => true; stdout := [] |} |}).
Proof.
  exact (plot_solution_draws_the_stored_solution _ _ _ _ _ start
           {| prog := two_steps; out := quiet |} OnBinary64.two_steps_constructed).
Defined.

Lemma csv_export_writes_mesh_and_solution_witness :
  exists (rows : list (list float)) s',
    csv_export "solution.csv" {| prog := two_steps; out := quiet |} = (IOk tt, s')
    /\ files (out s') !! "solution.csv"
       = Some {| csv_header := ["t"; "y(t)"]; csv_rows := rows |}
    /\ length rows = 3%nat.
Proof.
  destruct (csv_export_writes_mesh_and_solution _ _ _ _ _ start
              {| prog := two_steps; out := quiet |} "solution.csv"
              OnBinary64.two_steps_constructed eq_refl)
    as (mesh & sol & n & rows & s' & _ & _ & En & Erun & _ & Hfile & Hlen & _).
  change (o_num_steps (self two_steps)) with (Some 2%Z) in En. injection En as En.
  assert (n = 2%nat) as -> by lia.
  exists rows, s'. auto.
Defined.

Lemma csv_export_fails_without_a_trace_witness :
  csv_export "solution.csv" {| prog := two_steps; out := read_only |}
  = (IORaise (OSError "solution.csv"), {| prog := two_steps; out := read_only |}).
Proof.
  exact (csv_export_fails_without_a_trace _ _ _ _ _ start
           {| prog := two_steps; out := read_only |} "solution.csv"
           OnBinary64.two_steps_constructed eq_refl).
Defined.

Lemma main_plots_what_it_exports_witness :
  exists (mesh sol : list float) (h : float) s',
    main (pure_fun simple_f) 2 0 1 1 {| prog := start; out := quiet |} = (IOk tt, s')
    /\ plt (out s') = figure mesh sol h 2
    /\ files (out s') = <["solution.csv" := table mesh sol]> ∅.
Proof.
  destruct (main_plots_what_it_exports (pure_fun simple_f) 2 0 1 1
              {| prog := start; out := quiet |} two_steps
              OnBinary64.two_steps_constructed eq_refl)
    as (mesh & sol & h & _ & _ & _ & _ & Hmain).
  exists mesh, sol, h. eexists. split; [exact Hmain|]. split; reflexivity.
Defined.

(** On a file system that refuses the write, the figure has been shown
    when the [OSError] comes out. *)
Lemma main_fails_in_the_constructor_or_on_the_file_witness :
  exists (mesh sol : list float) (h : float),
    plt (out (snd (main (pure_fun simple_f) 2 0 1 1
                     {| prog := start; out := read_only |})))
    = figure mesh sol h 2.
Proof.
  assert (Erun : main (pure_fun simple_f) 2 0 1 1 {| prog := start; out := read_only |}
                 = (IORaise (OSError "solution.csv"),
                    snd (main (pure_fun simple_f) 2 0 1 1
                           {| prog := start; out := read_only |})))
    by (vm_compute; reflexivity).
  destruct (main_fails_in_the_constructor_or_on_the_file _ _ _ _ _ _ _ _ Erun)
    as [(e0 & st1 & _ & He & _)|(st1 & mesh & sol & h & _ & _ & _ & _ & _ & _ & Hs)];
    [discriminate He|].
  exists mesh, sol, h. rewrite Hs. reflexivity.
Defined.
End UsageOnBinary64.
